(** * A shift-distance sweep of a logistic-regression experiment

    Shallow embedding of [logistic_regression.py].  The script draws two
    Gaussian clusters whose centres lie [distance] apart on each axis, fits a
    logistic regression to them, and records the fitted parameters, the
    logistic loss and the width of the margin between the two 0.7-confidence
    regions, for each of a list of shift distances.

    Numbers are binary64 floats, as in Python and numpy: they are modelled by
    Rocq's primitive floats, whose operations are specified by [SpecFloat].
    The libraries the script calls (numpy's random generator, scikit-learn,
    matplotlib's contouring, the C library's logarithm) are collaborators:
    each is an interface (a class) whose operations the script's functions are
    written against. *)

From Stdlib Require Import Reals Lra.
From Stdlib Require Uint63.
From Stdlib Require Import List ZArith Bool Lia Floats.
Import ListNotations.

Set Warnings "-inexact-float".

(* ================================================================== *)
(** * Part I: the model *)
(* ================================================================== *)

(** ** Exceptions *)

(** The Python exceptions the script can raise. *)
Inductive exn : Type :=
| IndexError
| ValueError
| ZeroDivisionError.

(** A computation that returns a value or raises. *)
Inductive result (A : Type) : Type :=
| Ok (a : A)
| Raise (e : exn).

Arguments Ok {A} a.
Arguments Raise {A} e.

Definition bind {A B : Type} (r : result A) (k : A -> result B) : result B :=
  match r with
  | Ok a => k a
  | Raise e => Raise e
  end.

Notation "x <- r ;; k" := (bind r (fun x => k))
  (at level 61, r at next level, right associativity).

(** [xs[i]] on a Python list. *)
Definition index {A : Type} (xs : list A) (i : nat) : result A :=
  match nth_error xs i with
  | Some x => Ok x
  | None => Raise IndexError
  end.

(** ** Points, datasets *)

Definition point : Type := (float * float)%type.

(** A [(2, 2)] array, row by row. *)
Definition matrix2 : Type := ((float * float) * (float * float))%type.

(** [X, y]: the points and, parallel to them, their labels. *)
Definition dataset : Type := (list point * list float)%type.

(** ** Binary64 helpers *)

Module F64.
Local Open Scope float_scope.

(** The conversion of a count to a float ([float(n)]); counts stay far below
    [2^63]. *)
Definition of_nat (n : nat) : float := of_uint63 (Uint63.of_Z (Z.of_nat n)).

(** Numeric agreement of two results: equal as IEEE values (so [+0] and
    [-0] agree), or both not-a-number. *)
Definition same_value (a b : float) : bool :=
  (a =? b) || (is_nan a && is_nan b).

(** Neither infinite nor not-a-number, on both coordinates. *)
Definition finite_point (p : float * float) : bool :=
  is_finite (fst p) && is_finite (snd p).

(** The real number a finite float stands for: its mantissa, signed, times
    the power of two of its exponent.  (An infinity and not-a-number stand for
    no number; the function gives them 0.) *)
Definition to_R (x : float) : R :=
  match Prim2SF x with
  | S754_finite s m e => (IZR (cond_Zopp s (Zpos m)) * powerRZ 2 e)%R
  | _ => 0%R
  end.

End F64.

(** ** Classes of binary64 values *)

(** Predicates on [spec_float], the inductive reading of a float that
    [Prim2SF] returns and that specifies the primitive operations. *)
Module SF.

(** A zero, a finite number or an infinity whose sign bit is [s]. *)
Definition signed (s : bool) (x : spec_float) : Prop :=
  match x with
  | S754_zero s' | S754_infinity s' | S754_finite s' _ _ => s' = s
  | S754_nan => False
  end.

(** At least zero ([-0] included), and at most zero ([+0] included). *)
Definition nonneg (x : spec_float) : Prop :=
  match x with
  | S754_zero _ => True
  | S754_infinity s | S754_finite s _ _ => s = false
  | S754_nan => False
  end.

Definition nonpos (x : spec_float) : Prop :=
  match x with
  | S754_zero _ => True
  | S754_infinity s | S754_finite s _ _ => s = true
  | S754_nan => False
  end.

Definition finite (x : spec_float) : Prop :=
  match x with
  | S754_zero _ | S754_finite _ _ _ => True
  | _ => False
  end.

Definition not_nan (x : spec_float) : Prop := x <> S754_nan.

(** Agreement up to the sign of a zero. *)
Definition agree (x y : spec_float) : Prop :=
  x = y \/ (exists s s', x = S754_zero s /\ y = S754_zero s').

End SF.

(** ** Rounding, on integers *)

(** How IEEE addition rounds, told on integers: the notions in which the
    monotonicity of [1 + d] in [d] is stated and proved from [SpecFloat]'s
    definitions. *)
Module Round.
Local Open Scope Z_scope.

(** The record [r] is what is left of [K] after [j] bits were shifted out:
    the mantissa, the last bit shifted out, and whether any bit before it was
    set. *)
Definition shifted (K j : Z) (r : shr_record) : Prop :=
  exists l, 0 <= l < 2 ^ j /\
            2 * K = 2 * shr_m r * 2 ^ j + Z.b2z (shr_r r) * 2 ^ j + l /\
            (shr_s r = true <-> l <> 0) /\ 0 <= shr_m r.

(** The mantissa after rounding to nearest, ties to even. *)
Definition rounded (r : shr_record) : Z :=
  round_nearest_even (shr_m r) (loc_of_shr_record r).

(** What rounding makes of the integer [K], counted in units of [2^-1074]:
    the bits beyond the 53rd are shifted out, the mantissa is rounded to
    nearest, and a mantissa that rounding carries to [2^53] is renormalised. *)
Definition rounds_to (K : positive) (m e : Z) : Prop :=
  exists r,
    shifted (Zpos K) (Z.max (Zpos (digits2_pos K) - 53) 0) r /\
    (53 < Zpos (digits2_pos K) -> 2 ^ 52 <= shr_m r) /\
    ((rounded r < 2 ^ 53 /\ m = rounded r /\
      e = -1074 + Z.max (Zpos (digits2_pos K) - 53) 0) \/
     (rounded r = 2 ^ 53 /\ m = 2 ^ 52 /\
      e = -1074 + Z.max (Zpos (digits2_pos K) - 53) 0 + 1)).

(** The float of a rounded mantissa and exponent: an infinity beyond the
    greatest exponent. *)
Definition round_result (m e : Z) : spec_float :=
  if e <=? 971 then S754_finite false (Z.to_pos m) e else S754_infinity false.

(** The rounding of [K * 2^-1074]. *)
Definition round_at_emin (K : positive) : spec_float :=
  binary_round_aux prec emax false (Zpos K) (-1074) loc_Exact.

(** The float 1. *)
Definition SFone : spec_float := S754_finite false 4503599627370496 (-52).

(** A value that is at least zero and finite, counted in units of
    [2^-1074]. *)
Definition units (x : spec_float) : Z :=
  match x with
  | S754_finite false m e => Zpos m * 2 ^ (e + 1074)
  | _ => 0
  end.

(** Zero or a positive finite number, in canonical form. *)
Definition counted (x : spec_float) : Prop :=
  match x with
  | S754_zero _ => True
  | S754_finite false m e => bounded prec emax m e = true
  | _ => False
  end.

End Round.

(** ** numpy *)

Module Np.
Local Open Scope float_scope.

Definition zeros (n : nat) : list float := repeat 0 n.
Definition ones (n : nat) : list float := repeat 1 n.

(** [np.vstack((a, b))] of two [(n, 2)] arrays and [np.hstack((a, b))] of two
    vectors. *)
Definition vstack {A : Type} (a b : list A) : list A := a ++ b.
Definition hstack {A : Type} (a b : list A) : list A := a ++ b.

(** [np.arange(0, n)] as floats. *)
Definition arange (n : nat) : list float := map F64.of_nat (seq 0 n).

(** [y[-1] = v]. *)
Definition set_last (y : list float) (v : float) : list float :=
  removelast y ++ [v].

(** [np.linspace(start, stop, num)] (endpoint included), step by step as
    numpy computes it: the indices [0 .. num-1] are scaled by the step
    [(stop - start) / (num - 1)] (through [delta] when the step underflows
    to zero), shifted by [start], and the last entry is overwritten by
    [stop]. *)
Definition linspace (start stop : float) (num : nat) : list float :=
  let div := (num - 1)%nat in
  let delta := stop - start in
  let y := arange num in
  let y :=
    if (0 <? div)%nat then
      let step := delta / F64.of_nat div in
      if step =? 0
      then map (fun v => v / F64.of_nat div * delta) y
      else map (fun v => v * step) y
    else map (fun v => v * delta) y in
  let y := map (fun v => v + start) y in
  if (1 <? num)%nat then set_last y stop else y.

(** The step of [linspace] and its entry at index [i], for [num >= 2]. *)
Definition linspace_step (start stop : float) (num : nat) : float :=
  (stop - start) / F64.of_nat (num - 1).

Definition linspace_entry (start stop : float) (num i : nat) : float :=
  let step := linspace_step start stop num in
  if step =? 0
  then F64.of_nat i / F64.of_nat (num - 1) * (stop - start) + start
  else F64.of_nat i * step + start.

(** [np.minimum] and [np.maximum] on two floats: a not-a-number wins. *)
Definition minimum (a b : float) : float :=
  if (a <=? b) || is_nan a then a else b.
Definition maximum (a b : float) : float :=
  if (b <=? a) || is_nan a then a else b.

(** [np.min(a)] and [np.max(a)]: a reduction from the first entry; an empty
    array has no minimum and the call raises. *)
Definition min (a : list float) : result float :=
  match a with
  | [] => Raise ValueError
  | x :: xs => Ok (fold_left minimum xs x)
  end.
Definition max (a : list float) : result float :=
  match a with
  | [] => Raise ValueError
  | x :: xs => Ok (fold_left maximum xs x)
  end.

(** [np.sum(a)]: the entries added up (numpy does not fix the order of the
    additions; the model adds from left to right), and [np.mean(a)]: the sum
    over the count.  The mean of an empty array is [0/0]. *)
Definition sum (a : list float) : float :=
  match a with
  | [] => 0
  | x :: xs => fold_left PrimFloat.add xs x
  end.
Definition mean (a : list float) : float := sum a / F64.of_nat (length a).

(** numpy does not fix the order in which [np.sum] and [np.mean] add the
    entries of an array up: a short array is added from the first entry on, a
    long one in blocks and by halves, and a partial sum may start from a
    zero.  An order of summation is a tree: the entry at an index, a zero to
    start from, or the sum of two partial sums. *)
Inductive sum_order : Type :=
| Entry (i : nat)
| Start (negative : bool)
| Plus (a b : sum_order).

Fixpoint add_up (t : sum_order) (entry : nat -> float) : float :=
  match t with
  | Entry i => entry i
  | Start negative => if negative then neg_zero else zero
  | Plus a b => add_up a entry + add_up b entry
  end.

Fixpoint entries (t : sum_order) : list nat :=
  match t with
  | Entry i => [i]
  | Start _ => []
  | Plus a b => entries a ++ entries b
  end.

(** The order adds each of the entries [0 .. n-1] once, and nothing else. *)
Definition adds_each_once (t : sum_order) (n : nat) : bool :=
  forallb (fun i => (i <? n)%nat) (entries t) &&
  forallb (fun i => (length (filter (Nat.eqb i) (entries t)) =? 1)%nat) (seq 0 n).

(** [np.sum(a)] and [np.mean(a)] with the additions made in the order [t]. *)
Definition sum_in (t : sum_order) (a : list float) : float :=
  add_up t (fun i => nth i a nan).
Definition mean_in (t : sum_order) (a : list float) : float :=
  sum_in t a / F64.of_nat (length a).

(** The order of [sum] above: from the first entry on, one entry after the
    other ([from_first k] adds the entries [0 .. k]). *)
Fixpoint from_first (k : nat) : sum_order :=
  match k with
  | O => Entry 0
  | S k' => Plus (from_first k') (Entry k)
  end.
Definition left_to_right (n : nat) : sum_order :=
  match n with
  | O => Start false
  | S k => from_first k
  end.

(** An operation on two arrays of the same length, entry by entry. *)
Definition map2 (f : float -> float -> float) (a b : list float) : list float :=
  map (fun ab => f (fst ab) (snd ab)) (combine a b).

(** [np.meshgrid(xs, ys)]: [xx[i][j] = xs[j]] and [yy[i][j] = ys[i]]. *)
Definition meshgrid (xs ys : list float) : list (list float) * list (list float) :=
  (map (fun _ => xs) ys, map (fun y => map (fun _ => y) xs) ys).

End Np.

(** [scipy.spatial.distance.cdist(XA, XB, metric='euclidean')]: the matrix
    of the distances between each row of [XA] and each row of [XB]. *)
Definition euclidean (u v : point) : float :=
  let d0 := (fst u - fst v)%float in
  let d1 := (snd u - snd v)%float in
  PrimFloat.sqrt (d0 * d0 + d1 * d1)%float.

Definition cdist (XA XB : list point) : list (list float) :=
  map (fun u => map (fun v => euclidean u v) XB) XA.

(** ** numpy's global random generator *)

(** [np.random] keeps one generator state for the whole process.
    [np.random.seed] replaces it by a state computed from the seed alone, and
    a draw reads the state and leaves a new one. *)
Class NumpyRandom : Type := {
  rng_state : Type;
  seed : Z -> rng_state;
  multivariate_normal :
    point -> matrix2 -> nat -> rng_state -> list point * rng_state
}.

(** [size=n] draws [n] rows. *)
Class NumpyRandomLaws (R : NumpyRandom) : Prop := {
  multivariate_normal_size :
    forall mean cov n g, length (fst (multivariate_normal mean cov n g)) = n
}.

(** ** The cluster generator *)

Section Generator.
Context {R : NumpyRandom}.
Local Open Scope float_scope.

Definition covariance_matrix (cluster_std : float) : matrix2 :=
  ((cluster_std, cluster_std * 0.8),
   (cluster_std * 0.8, cluster_std)).

Definition class0_mean : point := (1, 1).
Definition class1_mean (distance : float) : point :=
  (1 + distance, 1 + distance).

(** [generate_ellipsoid_clusters(distance, n_samples, cluster_std)], run
    with the process's generator in state [g]; it returns [(X, y)] and the
    state it leaves. *)
Definition generate_ellipsoid_clusters
  (g : rng_state) (distance : float) (n_samples : nat) (cluster_std : float)
  : dataset * rng_state :=
  let g0 := seed 0 in
  let cov := covariance_matrix cluster_std in
  let '(X1, g1) := multivariate_normal class0_mean cov n_samples g0 in
  let y1 := Np.zeros n_samples in
  let '(X2, g2) := multivariate_normal (class1_mean distance) cov n_samples g1 in
  let y2 := Np.ones n_samples in
  let X := Np.vstack X1 X2 in
  let y := Np.hstack y1 y2 in
  ((X, y), g2).

(** The two draws of a call, named. *)
Definition class0_sample (n_samples : nat) (cluster_std : float) : list point :=
  fst (multivariate_normal class0_mean (covariance_matrix cluster_std)
         n_samples (seed 0)).

Definition class1_sample (distance : float) (n_samples : nat) (cluster_std : float)
  : list point :=
  let cov := covariance_matrix cluster_std in
  fst (multivariate_normal (class1_mean distance) cov n_samples
         (snd (multivariate_normal class0_mean cov n_samples (seed 0)))).

End Generator.

(** The defaults of the signature. *)
Definition default_n_samples : nat := 100.
Definition default_cluster_std : float := 0.5%float.

(** How many entries of [y] are the label [l]. *)
Definition count_label (l : float) (y : list float) : nat :=
  length (filter (fun v => PrimFloat.eqb v l) y).

(** ** The fitted model *)

(** scikit-learn's [LogisticRegression]: [fit] returns an estimator, which
    exposes [intercept_[0]], the two entries of [coef_[0]], and, for a query
    point, the row [predict_proba] gives it: the probabilities of class 0
    and of class 1.

    The interface covers the calls on arrays that scikit-learn accepts.  The
    library checks what it is given: [fit] and [predict_proba] raise a
    [ValueError] on an array with an infinite or not-a-number entry, and [fit]
    also on labels of a single class or on as many rows as labels not
    matching.  That refusal is not part of the interface, so nothing below
    speaks of a step on such data as the script would run it. *)
Class Sklearn : Type := {
  estimator : Type;
  fit : list point -> list float -> estimator;
  intercept_0 : estimator -> float;
  coef_0 : estimator -> float * float;
  predict_proba : estimator -> point -> float * float
}.

(** [np.log] on one float. *)
Class Libm : Type := {
  np_log : float -> float
}.

(** What the C standard (Annex F) and the monotonicity of the logarithm fix:
    [log(+0) = -inf], [log(1) = +0], and on [(0, 1]] a finite value that is
    at most zero. *)
Class LibmLaws (M : Libm) : Prop := {
  np_log_zero : np_log 0%float = neg_infinity;
  np_log_one : np_log 1%float = 0%float;
  np_log_unit :
    forall x, (0 <? x)%float = true -> (x <=? 1)%float = true ->
      (np_log x <=? 0)%float = true /\ is_finite (np_log x) = true
}.

Section Fitting.
Context {K : Sklearn} {M : Libm}.
Local Open Scope float_scope.

(** [fit_logistic_regression(X, y)]. *)
Definition fit_logistic_regression (X : list point) (y : list float)
  : estimator * float * float * float :=
  let model := fit X y in
  let beta0 := intercept_0 model in
  let '(beta1, beta2) := coef_0 model in
  (model, beta0, beta1, beta2).

(** [model.predict_proba(X)[:, 1]]. *)
Definition class1_probabilities (model : estimator) (X : list point) : list float :=
  map (fun x => snd (predict_proba model x)) X.

(** The array under the mean in [logistic_loss]:
    [y * np.log(p) + (1 - y) * np.log(1 - p)]. *)
Definition log_likelihoods (y probabilities : list float) : list float :=
  Np.map2 PrimFloat.add
    (Np.map2 PrimFloat.mul y (map np_log probabilities))
    (Np.map2 PrimFloat.mul (map (fun v => 1 - v) y)
       (map np_log (map (fun p => 1 - p) probabilities))).

(** [logistic_loss(model, X, y)]. *)
Definition logistic_loss (model : estimator) (X : list point) (y : list float) : float :=
  let probabilities := class1_probabilities model X in
  let loss := - Np.mean (log_likelihoods y probabilities) in
  loss.

(** One entry of that array. *)
Definition log_likelihood (yi pi : float) : float :=
  yi * np_log pi + (1 - yi) * np_log (1 - pi).

(** [logistic_loss] with the additions of [np.mean] made in the order [t]. *)
Definition logistic_loss_in (t : Np.sum_order)
  (model : estimator) (X : list point) (y : list float) : float :=
  let probabilities := class1_probabilities model X in
  let loss := - Np.mean_in t (log_likelihoods y probabilities) in
  loss.

(** The specification's wording of the loss, with none of the code's
    arrays: for the point [i], with true label [y_i] and predicted class-1
    probability [p_i], the term [-(y_i ln p_i + (1 - y_i) ln (1 - p_i))]; the
    terms are accumulated, then averaged over all the points. *)
Definition negative_log_likelihood
  (model : estimator) (X : list point) (y : list float) (i : nat) : float :=
  match nth_error X i, nth_error y i with
  | Some x_i, Some y_i =>
      let p_i := snd (predict_proba model x_i) in
      - (y_i * np_log p_i + (1 - y_i) * np_log (1 - p_i))
  | _, _ => nan
  end.

(** A loop that accumulates the terms [0 .. n-1] from zero. *)
Fixpoint accumulated (n : nat) : Np.sum_order :=
  match n with
  | O => Np.Start false
  | S k => Np.Plus (accumulated k) (Np.Entry k)
  end.

Definition mean_negative_log_likelihood (t : Np.sum_order)
  (model : estimator) (X : list point) (y : list float) : float :=
  Np.add_up t (negative_log_likelihood model X y) / F64.of_nat (length X).

(** The decision boundary [x2 = slope * x1 + intercept]. *)
Definition slope_of (beta1 beta2 : float) : float := - beta1 / beta2.
Definition intercept_of (beta0 beta2 : float) : float := - beta0 / beta2.

End Fitting.

(** A probability that is neither 0 nor 1 leaves both [p] and [1 - p] in
    [(0, 1]]. *)
Definition in_unit (x : float) : bool := ((0 <? x) && (x <=? 1))%float.

Definition interior_probability (p : float) : bool :=
  in_unit p && in_unit (1 - p)%float.

(** ** Contours and the margin *)

(** A polyline is its vertices; a collection holds the polylines of one
    band ([get_paths()]); a contour set holds one collection per band
    ([collections]). *)
Definition path : Type := list point.
Definition path_collection : Type := list path.
Definition contour_set : Type := list path_collection.

(** [plt.contourf(xx, yy, Z, levels=[lo, hi])]: the boundary of the region
    where [lo <= Z <= hi]. *)
Class Matplotlib : Type := {
  contourf :
    list (list float) -> list (list float) -> list (list float) ->
    float * float -> contour_set
}.

(** [cs.collections[0].get_paths()[0].vertices]. *)
Definition first_polyline (cs : contour_set) : result path :=
  c <- index cs 0 ;;
  index c 0.

(** Lines 83-86: the least entry of the matrix of distances between the
    vertices of the two first polylines. *)
Definition min_distance (class_1_contour class_0_contour : contour_set) : result float :=
  v1 <- first_polyline class_1_contour ;;
  v0 <- first_polyline class_0_contour ;;
  Np.min (concat (cdist v1 v0)).

(** [m] is a least entry of the matrix [D]. *)
Definition is_minimum_entry (m : float) (D : list (list float)) : Prop :=
  In m (concat D) /\ forall x, In x (concat D) -> (m <=? x)%float = true.

(** ** The sweep *)

(** The series a sweep accumulates, one entry per finished step. *)
Record series : Type := {
  beta0_list : list float;
  beta1_list : list float;
  beta2_list : list float;
  slope_list : list float;
  intercept_list : list float;
  loss_list : list float;
  margin_widths : list float
}.

Definition empty_series : series :=
  {| beta0_list := []; beta1_list := []; beta2_list := []; slope_list := [];
     intercept_list := []; loss_list := []; margin_widths := [] |}.

(** Lines 63-68. *)
Definition record_parameters (s : series) (beta0 beta1 beta2 slope intercept loss : float)
  : series :=
  {| beta0_list := beta0_list s ++ [beta0];
     beta1_list := beta1_list s ++ [beta1];
     beta2_list := beta2_list s ++ [beta2];
     slope_list := slope_list s ++ [slope];
     intercept_list := intercept_list s ++ [intercept];
     loss_list := loss_list s ++ [loss];
     margin_widths := margin_widths s |}.

(** Line 87. *)
Definition record_margin (s : series) (m : float) : series :=
  {| beta0_list := beta0_list s;
     beta1_list := beta1_list s;
     beta2_list := beta2_list s;
     slope_list := slope_list s;
     intercept_list := intercept_list s;
     loss_list := loss_list s;
     margin_widths := margin_widths s ++ [m] |}.

(** How a piece of the sweep ends: normally, with the series (and whatever
    else it returns), or by an exception nothing catches, the series then
    being what had been appended so far. *)
Inductive outcome (A : Type) : Type :=
| Done (a : A)
| Crashed (e : exn) (s : series).

Arguments Done {A} a.
Arguments Crashed {A} e s.

Definition and_then {A B : Type} (o : outcome A) (k : A -> outcome B) : outcome B :=
  match o with
  | Done a => k a
  | Crashed e s => Crashed e s
  end.

(** A step that raises does so with the series as it stands. *)
Definition or_crash {A : Type} (s : series) (r : result A) : outcome A :=
  match r with
  | Ok a => Done a
  | Raise e => Crashed e s
  end.

Definition contour_levels : list float := [0.7; 0.8; 0.9]%float.

(** The number of grid lines on each axis. *)
Definition grid_size : nat := 200.

Section Sweep.
Context {R : NumpyRandom} {K : Sklearn} {M : Libm} {P : Matplotlib}.
Local Open Scope float_scope.

(** Lines 71-75: the probability of class 1 over a grid that covers the
    points with a margin of 1 on every side. *)
Definition confidence_surface (model : estimator) (X : list point)
  : result (list (list float) * list (list float) * list (list float)) :=
  x_lo <- Np.min (map fst X) ;;
  x_hi <- Np.max (map fst X) ;;
  y_lo <- Np.min (map snd X) ;;
  y_hi <- Np.max (map snd X) ;;
  let x_min := x_lo - 1 in
  let x_max := x_hi + 1 in
  let y_min := y_lo - 1 in
  let y_max := y_hi + 1 in
  let '(xx, yy) := Np.meshgrid (Np.linspace x_min x_max grid_size)
                               (Np.linspace y_min y_max grid_size) in
  let Z := map (fun row => map (fun q => snd (predict_proba model q)) row)
               (map (fun rows => combine (fst rows) (snd rows)) (combine xx yy)) in
  Ok (xx, yy, Z).

(** The two filled contours drawn for a level. *)
Definition class_1_contour (xx yy Z : list (list float)) (level : float) : contour_set :=
  contourf xx yy Z (level, 1.0).
Definition class_0_contour (xx yy Z : list (list float)) (level : float) : contour_set :=
  contourf xx yy Z (0.0, 1 - level).

(** Lines 79-87, one round of the loop over the levels. *)
Definition contour_round (xx yy Z : list (list float)) (s : series) (level : float)
  : outcome series :=
  let c1 := class_1_contour xx yy Z level in
  let c0 := class_0_contour xx yy Z level in
  if level =? 0.7 then
    and_then (or_crash s (min_distance c1 c0)) (fun m => Done (record_margin s m))
  else Done s.

Definition contour_rounds (xx yy Z : list (list float)) (s : series) (levels : list float)
  : outcome series :=
  fold_left (fun acc level => and_then acc (fun s' => contour_round xx yy Z s' level))
    levels (Done s).

(** The series once the parameters fitted to [(X, y)] are appended
    (lines 56-68). *)
Definition after_fit (s : series) (X : list point) (y : list float) : series :=
  let '(model, beta0, beta1, beta2) := fit_logistic_regression X y in
  record_parameters s beta0 beta1 beta2
    (slope_of beta1 beta2) (intercept_of beta0 beta2) (logistic_loss model X y).

(** Lines 55-87, the body of the loop over the shift distances (the drawing
    calls of lines 89-95 touch only the figure). *)
Definition experiment (s : series) (g : rng_state) (distance : float)
  : outcome (series * rng_state) :=
  let '((X, y), g') :=
    generate_ellipsoid_clusters g distance default_n_samples default_cluster_std in
  let '(model, beta0, beta1, beta2) := fit_logistic_regression X y in
  let loss := logistic_loss model X y in
  let slope := slope_of beta1 beta2 in
  let intercept := intercept_of beta0 beta2 in
  let s1 := record_parameters s beta0 beta1 beta2 slope intercept loss in
  and_then (or_crash s1 (confidence_surface model X)) (fun grid =>
    let '(xx, yy, Z) := grid in
    and_then (contour_rounds xx yy Z s1 contour_levels) (fun s2 => Done (s2, g'))).

(** The loop of [do_experiments] over an array of shift distances. *)
Definition run_experiments (distances : list float) (s : series) (g : rng_state)
  : outcome (series * rng_state) :=
  fold_left
    (fun acc distance => and_then acc (fun sg => experiment (fst sg) (snd sg) distance))
    distances (Done (s, g)).

(** [do_experiments(start, end, step_num)], started with the process's
    generator in state [g]: the array of shift distances (line 45) and the
    loop over it (lines 54-87).  The drawing calls of the loop and what
    follows it (the layout and the writing of the two figures, lines 97-132)
    only read the series and are not modelled: the outcome is that of the
    loop. *)
Definition do_experiments (start stop : float) (step_num : nat) (g : rng_state)
  : outcome (series * rng_state) :=
  let shift_distances := Np.linspace start stop step_num in
  run_experiments shift_distances empty_series g.

(** The script run as a program. *)
Definition main (g : rng_state) : outcome (series * rng_state) :=
  let start := 0.25 in
  let stop := 2.0 in
  let step_num := 8%nat in
  do_experiments start stop step_num g.

End Sweep.


(** The series a piece of the sweep ends with, finished or not. *)
Definition series_reached {A : Type} (o : outcome (series * A)) : series :=
  match o with
  | Done (s, _) => s
  | Crashed _ s => s
  end.

(** A contour set with no polyline in its first collection (or with no
    collection at all). *)
Definition no_polyline (cs : contour_set) : bool :=
  match cs with
  | [] => true
  | [] :: _ => true
  | _ => false
  end.


Section StepConditions.
Context {R : NumpyRandom} {K : Sklearn} {M : Libm} {P : Matplotlib}.




End StepConditions.


(** ** The separation of the cluster centres *)

(** The Euclidean distance between two points of the plane, over the real
    numbers. *)
Module Exact.
Local Open Scope R_scope.

Definition euclidean (u v : R * R) : R :=
  let d0 := fst u - fst v in
  let d1 := snd u - snd v in
  R_sqrt.sqrt (d0 * d0 + d1 * d1).

End Exact.

(** The distance between the two centres the generator uses at a shift
    distance (lines 20 and 24): [class0_mean] and [class1_mean distance], the
    latter with its sum [1 + distance] as binary64 computes it. *)
Definition real_point (p : point) : R * R := (F64.to_R (fst p), F64.to_R (snd p)).

Definition mean_separation (distance : float) : R :=
  Exact.euclidean (real_point (class1_mean distance)) (real_point class0_mean).

(** ** A generator for examples *)

(** A linear congruential generator; a "draw" offsets the mean by the state.
    It stands in for numpy's generator where an example needs one. *)
Module Lcg.

Definition next (g : Z) : Z := ((1103515245 * g + 12345) mod 2147483648)%Z.

Definition jitter (g : Z) : float :=
  (of_uint63 (Uint63.of_Z (g mod 1000)) / 1000 - 0.5)%float.

Fixpoint draw (mean : point) (n : nat) (g : Z) : list point * Z :=
  match n with
  | O => ([], g)
  | S n' =>
      let g1 := next g in
      let g2 := next g1 in
      let p := (fst mean + jitter g1, snd mean + jitter g2)%float in
      let '(ps, g') := draw mean n' g2 in
      (p :: ps, g')
  end.

Definition rng : NumpyRandom :=
  {| rng_state := Z;
     seed := fun s => s;
     multivariate_normal := fun mean _ n g => draw mean n g |}.

End Lcg.

(** ** Collaborators for examples *)

(** Stand-ins for the other libraries: an estimator with given
    coefficients and a given probability surface, a contouring routine that
    returns given polylines, and a step function with the logarithm's special
    values and sign. *)
Module Demo.
Local Open Scope float_scope.

Definition sklearn (beta0 beta1 beta2 : float) (proba : point -> float) : Sklearn :=
  {| estimator := unit;
     fit := fun _ _ => tt;
     intercept_0 := fun _ => beta0;
     coef_0 := fun _ => (beta1, beta2);
     predict_proba := fun _ q => (1 - proba q, proba q) |}.

Definition step_log (x : float) : float :=
  if x =? 0 then neg_infinity
  else if x =? 1 then 0
  else if (0 <? x) && (x <? 1) then -1
  else if 1 <? x then 1
  else nan.

Definition libm : Libm := {| np_log := step_log |}.

Definition matplotlib (c1 c0 : contour_set) : Matplotlib :=
  {| contourf := fun _ _ _ levels => if fst levels =? 0 then c0 else c1 |}.

(** Two contour sets with one polyline each, and one with none. *)
Definition red : contour_set := [[[(2, 2); (3, 2)]]].
Definition blue : contour_set := [[[(0, 0); (0, 1)]]].
Definition nothing : contour_set := [[]].

(** The dataset, the final generator state and the grid of a step at shift
    distance [d], with the example generator seeded anyhow. *)
Definition drawn (d : float) : dataset * Z :=
  generate_ellipsoid_clusters (R := Lcg.rng) 0%Z d default_n_samples default_cluster_std.

Definition grid (K : Sklearn) (d : float)
  : list (list float) * list (list float) * list (list float) :=
  let X := fst (fst (drawn d)) in
  let y := snd (fst (drawn d)) in
  match confidence_surface (K := K) (fit X y) X with
  | Ok g => g
  | Raise _ => ([], [], [])
  end.

End Demo.

(** ** The figure of the sweep *)

(** Lines 49-52: one panel per shift distance, laid out in two columns. *)
Definition n_cols : nat := 2.
Definition n_rows (n_samples : nat) : nat := (n_samples + n_cols - 1) / n_cols.

(** [enumerate(l, 1)]. *)
Definition enumerate_from_1 {A : Type} (l : list A) : list (nat * A) :=
  combine (seq 1 (length l)) l.

(** [plt.subplot(nrows, ncols, index)] selects the panel [index], counted
    from 1 along the rows; an index outside [1 .. nrows * ncols] is refused. *)
Definition subplot (nrows ncols index : nat) : result unit :=
  if ((1 <=? index) && (index <=? nrows * ncols))%nat then Ok tt else Raise ValueError.

(** Line 90, for each step of the loop of line 54. *)
Definition panels (shift_distances : list float) : list (result unit) :=
  let n_samples := length shift_distances in
  map (fun id => subplot (n_rows n_samples) n_cols (fst id))
      (enumerate_from_1 shift_distances).

(** Line 93: the ordinates of the decision boundary drawn over the grid's
    abscissas, [slope * xx[0, :] + intercept]. *)
Definition boundary_ordinates (slope intercept : float) (xs : list float) : list float :=
  map (fun x => (slope * x + intercept)%float) xs.

(** The entry of a grid at row [i] and column [j]. *)
Definition grid_at (G : list (list float)) (i j : nat) : option float :=
  match nth_error G i with
  | Some row => nth_error row j
  | None => None
  end.

(** A contouring routine for examples that returns the polylines [c1] and
    [c0] for the two bands of level 0.7 and [other] for every other band. *)
Definition shaded_matplotlib (c1 c0 other : contour_set) : Matplotlib :=
  {| contourf := fun _ _ _ levels =>
       if ((fst levels =? 0.7) && (snd levels =? 1.0))%float then c1
       else if ((fst levels =? 0.0) && (snd levels =? 1 - 0.7))%float then c0
       else other |}.

(** The surface of an example, or empty grids if it cannot be built. *)
Definition surface_or_empty (K : Sklearn) (model : estimator) (X : list point)
  : list (list float) * list (list float) * list (list float) :=
  match confidence_surface model X with
  | Ok grids => grids
  | Raise _ => ([], [], [])
  end.

(** ** What the series keep *)

(** The slope and the intercept recorded at a position are the ones derived
    from the coefficients recorded there, and the six parameter series have
    the same length. *)
Definition coherent (s : series) : Prop :=
  length (beta1_list s) = length (beta0_list s) /\
  length (beta2_list s) = length (beta0_list s) /\
  length (loss_list s) = length (beta0_list s) /\
  slope_list s = Np.map2 slope_of (beta1_list s) (beta2_list s) /\
  intercept_list s = Np.map2 intercept_of (beta0_list s) (beta2_list s).

(** A prediction that is certain and wrong. *)
Definition certain_and_wrong (yi pi : float) : Prop :=
  (yi = 1%float /\ pi = 0%float) \/ (yi = 0%float /\ pi = 1%float).

(* ================================================================== *)
(** * Part II: properties *)
(* ================================================================== *)

(** ** Binary64 arithmetic: signs, order, negation *)

(** What the claims need of IEEE arithmetic, proved on [SpecFloat]'s
    definitions: which operations keep a sign, that [<=] is a total preorder
    away from not-a-number, that negation commutes with sums and quotients up
    to the sign of zero, and that a count converts to a positive float. *)
Module SFFacts.
Import SF.

Lemma iter_pos_invariant {A : Type} (P : A -> Prop) (f : A -> A) :
  (forall x, P x -> P (f x)) -> forall p x, P x -> P (iter_pos f p x).
Proof.
  intros Hf. induction p as [p IH|p IH|]; intros x Hx; cbn; auto.
Qed.

Lemma shr_1_nonneg mrs : (0 <= shr_m mrs)%Z -> (0 <= shr_m (shr_1 mrs))%Z.
Proof.
  destruct mrs as [m r s]. cbn. destruct m as [|[p|p|]|[p|p|]]; cbn; lia.
Qed.

Lemma shr_nonneg mrs e n :
  (0 <= shr_m mrs)%Z -> (0 <= shr_m (fst (shr mrs e n)))%Z.
Proof.
  intros H. unfold shr. destruct n; cbn; auto.
  apply (iter_pos_invariant (fun r => (0 <= shr_m r)%Z)); auto using shr_1_nonneg.
Qed.

Lemma shr_fexp_nonneg p e m ex l :
  (0 <= m)%Z -> (0 <= shr_m (fst (shr_fexp p e m ex l)))%Z.
Proof.
  intros H. unfold shr_fexp. apply shr_nonneg.
  destruct l as [|[]]; cbn; assumption.
Qed.

Lemma round_nearest_even_nonneg m l : (0 <= m)%Z -> (0 <= round_nearest_even m l)%Z.
Proof.
  intros H. unfold round_nearest_even. destruct l as [|[]]; try lia.
  destruct (Z.even m); lia.
Qed.

Lemma binary_round_aux_signed p e sx mx ex lx :
  (0 <= mx)%Z -> signed sx (binary_round_aux p e sx mx ex lx).
Proof.
  intros H. unfold binary_round_aux.
  pose proof (shr_fexp_nonneg p e mx ex lx H) as H1.
  destruct (shr_fexp p e mx ex lx) as [mrs' e']. cbn [fst] in H1.
  pose proof (shr_fexp_nonneg p e _ e' loc_Exact
                (round_nearest_even_nonneg _ (loc_of_shr_record mrs') H1)) as H2.
  destruct (shr_fexp p e (round_nearest_even _ _) e' loc_Exact) as [mrs'' e''].
  cbn [fst] in H2. destruct (shr_m mrs''); cbn; try lia; auto.
  destruct (Z.leb _ _); reflexivity.
Qed.

Lemma binary_round_signed p e sx mx ex : signed sx (binary_round p e sx mx ex).
Proof.
  unfold binary_round. destruct (shl_align _ _ _) as [mz ez].
  apply binary_round_aux_signed. lia.
Qed.

Lemma binary_normalize_not_nan p e m ex sz : not_nan (binary_normalize p e m ex sz).
Proof.
  unfold binary_normalize, not_nan. destruct m.
  - discriminate.
  - pose proof (binary_round_signed p e false p0 ex) as H.
    intros E. rewrite E in H. exact H.
  - pose proof (binary_round_signed p e true p0 ex) as H.
    intros E. rewrite E in H. exact H.
Qed.

Lemma mul_self_signed p e x : not_nan x -> signed false (SFmul p e x x).
Proof.
  intros H. destruct x as [s|s| |s m ex]; cbn.
  - apply xorb_nilpotent.
  - apply xorb_nilpotent.
  - now apply H.
  - rewrite xorb_nilpotent. apply binary_round_aux_signed. lia.
Qed.

Lemma add_signed_false p e x y :
  signed false x -> signed false y -> signed false (SFadd p e x y).
Proof.
  destruct x as [s|s| |s m ex]; destruct y as [s'|s'| |s' m' ey]; cbn;
    intros Hx Hy; try contradiction; subst; cbn; try reflexivity.
  apply binary_round_signed.
Qed.

Lemma sqrt_signed_false p e x : signed false x -> signed false (SFsqrt p e x).
Proof.
  destruct x as [s|s| |s m ex]; cbn; intros Hx; try contradiction; subst; cbn;
    try reflexivity.
  unfold SFsqrt_core_binary.
  set (m' := match _ with Zpos _ => _ | Z0 => _ | Zneg _ => _ end).
  assert (0 <= m')%Z.
  { subst m'. destruct (Z.sub _ _); try lia. apply Z.shiftl_nonneg. lia. }
  pose proof (Z.sqrtrem_spec m' H) as Hs.
  destruct (Z.sqrtrem m') as [q r].
  apply binary_round_aux_signed. nia.
Qed.

Lemma sub_finite_not_nan p e x y : finite x -> finite y -> not_nan (SFsub p e x y).
Proof.
  destruct x as [s|s| |s m ex]; destruct y as [s'|s'| |s' m' ey]; cbn;
    try contradiction; intros _ _.
  - destruct s, s'; discriminate.
  - discriminate.
  - discriminate.
  - apply binary_normalize_not_nan.
Qed.

Lemma leb_zero_signed_false p x : signed false x -> SFleb (S754_zero p) x = true.
Proof.
  destruct x as [s|s| |s m ex]; cbn; intros H; subst; try reflexivity; contradiction.
Qed.


Lemma compare_cont_spec m1 m2 :
  CompareSpec (m1 = m2) (m1 < m2)%positive (m2 < m1)%positive
    (PosDef.Pos.compare_cont Eq m1 m2).
Proof. exact (Pos.compare_spec m1 m2). Qed.

Ltac order_cases :=
  repeat match goal with
  | |- context [Z.compare ?a ?b] => destruct (Z.compare_spec a b); cbn in *; subst
  | H : context [Z.compare ?a ?b] |- _ => destruct (Z.compare_spec a b); cbn in *; subst
  | |- context [PosDef.Pos.compare_cont Eq ?a ?b] =>
      destruct (compare_cont_spec a b); cbn in *; subst
  | H : context [PosDef.Pos.compare_cont Eq ?a ?b] |- _ =>
      destruct (compare_cont_spec a b); cbn in *; subst
  end;
  try reflexivity; try discriminate; try lia.

Lemma SFleb_trans x y z :
  SFleb x y = true -> SFleb y z = true -> SFleb x z = true.
Proof.
  unfold SFleb, SFcompare.
  destruct x as [s1|s1| |s1 m1 e1]; destruct y as [s2|s2| |s2 m2 e2];
    destruct z as [s3|s3| |s3 m3 e3];
    try destruct s1; try destruct s2; try destruct s3; cbn;
    try reflexivity; try discriminate; intros H1 H2; order_cases.
Qed.

Lemma SFleb_total x y :
  not_nan x -> not_nan y -> SFleb x y = false -> SFleb y x = true.
Proof.
  unfold SFleb, SFcompare, not_nan.
  destruct x as [s1|s1| |s1 m1 e1]; destruct y as [s2|s2| |s2 m2 e2];
    try destruct s1; try destruct s2; cbn;
    try reflexivity; try discriminate; try congruence;
    intros _ _ H1; order_cases.
Qed.

Lemma SFleb_refl x : not_nan x -> SFleb x x = true.
Proof.
  unfold SFleb, SFcompare, not_nan.
  destruct x as [s1|s1| |s1 m1 e1]; try destruct s1; cbn; try reflexivity; try congruence;
    intros _; order_cases.
Qed.

Lemma SFleb_not_nan x y : SFleb x y = true -> not_nan x /\ not_nan y.
Proof.
  unfold SFleb, SFcompare, not_nan.
  destruct x, y; cbn; try discriminate; split; discriminate.
Qed.

Lemma signed_true_nonpos x : signed true x -> nonpos x.
Proof. destruct x; cbn; auto. Qed.
Lemma signed_false_nonneg x : signed false x -> nonneg x.
Proof. destruct x; cbn; auto. Qed.

Lemma add_nonpos p e x y : nonpos x -> nonpos y -> nonpos (SFadd p e x y).
Proof.
  destruct x as [s|s| |s m ex]; destruct y as [s'|s'| |s' m' ey]; cbn;
    intros Hx Hy; try contradiction; subst; cbn; try reflexivity.
  - destruct s, s'; exact I.
  - apply signed_true_nonpos, binary_round_signed.
Qed.

Lemma mul_pos_nonpos p e m ex y :
  nonpos y -> finite y -> nonpos (SFmul p e (S754_finite false m ex) y).
Proof.
  destruct y as [s'|s'| |s' m' ey]; cbn; intros Hy Hf; try contradiction; subst; auto.
  apply signed_true_nonpos, binary_round_aux_signed. lia.
Qed.

Lemma mul_zero_finite p e s y :
  finite y -> nonpos (SFmul p e (S754_zero s) y) /\ finite (SFmul p e (S754_zero s) y).
Proof. destruct y; cbn; intros Hf; try contradiction; auto. Qed.

Lemma div_core_nonneg p e m1 e1 m2 e2 :
  (0 <= fst (fst (SFdiv_core_binary p e (Zpos m1) e1 (Zpos m2) e2)))%Z.
Proof.
  unfold SFdiv_core_binary.
  set (m' := match _ with Zpos _ => _ | Z0 => _ | Zneg _ => _ end).
  assert (0 <= m')%Z.
  { subst m'. destruct (Z.sub _ _); try lia. apply Z.shiftl_nonneg. lia. }
  pose proof (Z.div_pos m' (Zpos m2) H ltac:(lia)) as Hq.
  unfold Z.div in Hq. destruct (Z.div_eucl m' (Zpos m2)) as [q r]. exact Hq.
Qed.

Lemma div_signed p e sx mx ex sy my ey :
  signed (xorb sx sy) (SFdiv p e (S754_finite sx mx ex) (S754_finite sy my ey)).
Proof.
  cbn. pose proof (div_core_nonneg p e mx ex my ey) as H.
  destruct (SFdiv_core_binary _ _ _ _ _ _) as [[mz ez] lz]. cbn in H.
  now apply binary_round_aux_signed.
Qed.

Lemma div_nonpos_pos p e x m ey :
  nonpos x -> nonpos (SFdiv p e x (S754_finite false m ey)).
Proof.
  destruct x as [s|s| |s mx ex]; intros Hx; try contradiction.
  - exact I.
  - cbn in *. subst. reflexivity.
  - cbn in Hx. subst. apply signed_true_nonpos. apply (div_signed p e true mx ex false m ey).
Qed.

Lemma opp_nonpos x : nonpos x -> nonneg (SFopp x).
Proof. destruct x; cbn; auto; intros ->; reflexivity. Qed.

Lemma leb_zero_nonneg s x : nonneg x -> SFleb (S754_zero s) x = true.
Proof. destruct x as [s'|s'| |s' m ex]; cbn; intros H; subst; try reflexivity; contradiction. Qed.

Lemma agree_refl x : agree x x.
Proof. now left. Qed.

Lemma binary_round_aux_opp p e s m ex l :
  binary_round_aux p e (negb s) m ex l = SFopp (binary_round_aux p e s m ex l).
Proof.
  unfold binary_round_aux.
  destruct (shr_fexp p e m ex l) as [mrs' e'].
  destruct (shr_fexp p e _ e' loc_Exact) as [mrs'' e''].
  destruct (shr_m mrs''); cbn; try reflexivity.
  destruct (Z.leb _ _); reflexivity.
Qed.

Lemma binary_round_opp p e s m ex :
  binary_round p e (negb s) m ex = SFopp (binary_round p e s m ex).
Proof.
  unfold binary_round. destruct (shl_align _ _ _). apply binary_round_aux_opp.
Qed.

Lemma binary_normalize_opp p e m ex :
  agree (binary_normalize p e (- m) ex false) (SFopp (binary_normalize p e m ex false)).
Proof.
  destruct m; cbn.
  - right. eauto.
  - left. apply (binary_round_opp p e false).
  - left. change false with (negb true). rewrite binary_round_opp.
    destruct (binary_round p e true p0 ex); cbn; rewrite ?negb_involutive; reflexivity.
Qed.

Lemma add_opp p e x y :
  agree (SFadd p e (SFopp x) (SFopp y)) (SFopp (SFadd p e x y)).
Proof.
  destruct x as [s|s| |s m ex]; destruct y as [s'|s'| |s' m' ey]; cbn;
    try (left; reflexivity);
    try (destruct s, s'; cbn; solve [left; reflexivity | right; eauto]).
  replace (cond_Zopp (negb s) (Z.pos (fst (shl_align m ex (Z.min ex ey)))) +
           cond_Zopp (negb s') (Z.pos (fst (shl_align m' ey (Z.min ex ey)))))%Z
    with (- (cond_Zopp s (Z.pos (fst (shl_align m ex (Z.min ex ey)))) +
             cond_Zopp s' (Z.pos (fst (shl_align m' ey (Z.min ex ey))))))%Z
    by (destruct s, s'; cbn [cond_Zopp negb]; lia).
  apply binary_normalize_opp.
Qed.

Lemma add_agree p e x x' y : agree x x' -> agree (SFadd p e x y) (SFadd p e x' y).
Proof.
  intros [->|(s & s' & -> & ->)]; [apply agree_refl|].
  destruct y as [t|t| |t m ey]; cbn; try (left; reflexivity).
  destruct s, s', t; cbn; solve [left; reflexivity | right; eauto].
Qed.

Lemma add_agree_r p e x y y' : agree y y' -> agree (SFadd p e x y) (SFadd p e x y').
Proof.
  intros [->|(s & s' & -> & ->)]; [apply agree_refl|].
  destruct x as [t|t| |t m ex]; cbn; try (left; reflexivity).
  destruct s, s', t; cbn; solve [left; reflexivity | right; eauto].
Qed.

(** A sum that starts from [+0] agrees with the entry it starts with. *)
Lemma add_zero_agree p e x : agree (SFadd p e (S754_zero false) x) x.
Proof.
  destruct x as [s|s| |s m ex]; cbn; try (left; reflexivity).
  destruct s; cbn; [right; eauto | left; reflexivity].
Qed.

Lemma agree_trans x y z : agree x y -> agree y z -> agree x z.
Proof.
  intros [E1|(s & s' & E1 & E2)] [E3|(t & t' & E3 & E4)]; subst.
  - now left.
  - right; eauto.
  - right; eauto.
  - right; eauto.
Qed.

Lemma div_opp p e x y : SFdiv p e (SFopp x) y = SFopp (SFdiv p e x y).
Proof.
  destruct x as [s|s| |s m ex]; destruct y as [s'|s'| |s' m' ey]; cbn;
    try reflexivity; try (destruct s, s'; reflexivity).
  destruct (SFdiv_core_binary _ _ _ _ _ _) as [[mz ez] lz].
  replace (xorb (negb s) s') with (negb (xorb s s')) by (destruct s, s'; reflexivity).
  apply binary_round_aux_opp.
Qed.

Lemma div_agree p e x x' y : agree x x' -> agree (SFdiv p e x y) (SFdiv p e x' y).
Proof.
  intros [->|(s & s' & -> & ->)]; [apply agree_refl|].
  destruct y as [t|t| |t m ey]; cbn; try (left; reflexivity); right; eauto.
Qed.

Lemma opp_agree x x' : agree x x' -> agree (SFopp x) (SFopp x').
Proof.
  intros [->|(s & s' & -> & ->)]; [apply agree_refl|]. right; cbn; eauto.
Qed.

Lemma SFeqb_refl x : not_nan x -> SFeqb x x = true.
Proof.
  unfold SFeqb, SFcompare, not_nan.
  destruct x as [s1|s1| |s1 m1 e1]; try destruct s1; cbn; try reflexivity; try congruence;
    intros _; order_cases.
Qed.

Lemma agree_eqb x y : agree x y -> not_nan x -> SFeqb x y = true.
Proof.
  intros [->|(s & s' & -> & ->)] H; [now apply SFeqb_refl | reflexivity].
Qed.

Lemma digits2_pos_size p : digits2_pos p = Pos.size p.
Proof. induction p; cbn; congruence. Qed.

Lemma digits2_pos_iter_xO p k :
  digits2_pos (Pos.iter xO p k) = (digits2_pos p + k)%positive.
Proof.
  induction k using Pos.peano_ind.
  - cbn. lia.
  - rewrite Pos.iter_succ. cbn. rewrite IHk. lia.
Qed.

Lemma digits2_pos_bound p k :
  (Zpos p < 2 ^ k)%Z -> (0 <= k)%Z -> (Zpos (digits2_pos p) <= k)%Z.
Proof.
  intros H Hk. rewrite digits2_pos_size.
  pose proof (Pos.size_le p) as Hle.
  destruct (Z_le_gt_dec (Zpos (Pos.size p)) k) as [|Hgt]; [assumption|exfalso].
  assert (Hp : (2 ^ Zpos (Pos.size p) <= Zpos p~0)%Z).
  { rewrite <- Pos2Z.inj_pow. apply Pos2Z.pos_le_pos. exact Hle. }
  assert (2 ^ (k + 1) <= 2 ^ Zpos (Pos.size p))%Z by (apply Z.pow_le_mono_r; lia).
  rewrite Z.pow_add_r in H0 by lia. lia.
Qed.

Lemma binary_round_aux_exact s mz ez :
  Zpos (digits2_pos mz) = 53%Z -> (-1074 <= ez <= 971)%Z ->
  binary_round_aux prec emax s (Zpos mz) ez loc_Exact = S754_finite s mz ez.
Proof.
  intros Hd He. unfold binary_round_aux, shr_fexp, Zdigits2, fexp, emin, prec, emax.
  cbn [shr_record_of_loc].
  rewrite Hd.
  replace (Z.max (53 + ez - 53) (3 - 1024 - 53) - ez)%Z with 0%Z by lia.
  cbn [shr shr_m loc_of_shr_record round_nearest_even shr_record_of_loc].
  rewrite Hd.
  replace (Z.max (53 + ez - 53) (3 - 1024 - 53) - ez)%Z with 0%Z by lia.
  cbn [shr shr_m].
  destruct (Z.leb_spec ez (1024 - 53)); [reflexivity|lia].
Qed.

Lemma binary_round_small p :
  (Zpos p < 2 ^ 53)%Z ->
  exists m e, binary_round prec emax false p 0 = S754_finite false m e.
Proof.
  intros H. pose proof (digits2_pos_bound p 53 H ltac:(lia)) as Hd.
  unfold binary_round, shl_align, fexp, emin, prec, emax.
  replace (Z.max (Zpos (digits2_pos p) + 0 - 53) (3 - 1024 - 53))%Z
    with (Zpos (digits2_pos p) - 53)%Z by lia.
  rewrite Z.sub_0_r.
  destruct (Zpos (digits2_pos p) - 53)%Z as [|q|q] eqn:E; try lia.
  - eexists _, _. apply binary_round_aux_exact; lia.
  - eexists _, _. apply binary_round_aux_exact.
    + rewrite digits2_pos_iter_xO. lia.
    + lia.
Qed.

Lemma of_nat_positive n :
  (0 < n)%nat -> (Z.of_nat n < 2 ^ 53)%Z ->
  exists m e, Prim2SF (of_uint63 (Uint63.of_Z (Z.of_nat n))) = S754_finite false m e.
Proof.
  intros Hn Hb. rewrite of_uint63_spec, Uint63.of_Z_spec.
  rewrite Z.mod_small.
  2:{ split; [lia|]. unfold Uint63.wB. cbn. change (2 ^ 53)%Z with 9007199254740992%Z in Hb. lia. }
  destruct (Z.of_nat n) as [|p|p] eqn:E; try lia.
  cbn [binary_normalize]. now apply binary_round_small.
Qed.

Lemma of_nat_zero : Prim2SF (of_uint63 (Uint63.of_Z (Z.of_nat 0))) = S754_zero false.
Proof. reflexivity. Qed.

End SFFacts.

(** ** The cluster generator *)

Section GeneratorFacts.
Context {R : NumpyRandom}.

Lemma generate_unfold g d n s :
  generate_ellipsoid_clusters g d n s =
  ((class0_sample n s ++ class1_sample d n s, Np.zeros n ++ Np.ones n),
   snd (multivariate_normal (class1_mean d) (covariance_matrix s) n
          (snd (multivariate_normal class0_mean (covariance_matrix s) n (seed 0))))).
Proof.
  unfold generate_ellipsoid_clusters, class0_sample, class1_sample, Np.vstack, Np.hstack.
  destruct (multivariate_normal class0_mean _ n (seed 0)) as [X1 g1]; cbn [fst snd].
  destruct (multivariate_normal (class1_mean d) _ n g1) as [X2 g2]; reflexivity.
Qed.

(** C3. Whatever state the process's generator is in when the call starts
    (whatever was drawn before), the call with the same [(d, n, s)] returns
    the same points, the same labels, and leaves the same state: the seed is
    set anew before anything is drawn. *)
Theorem generate_reproducible (g g' : rng_state) (d : float) (n : nat) (s : float) :
  generate_ellipsoid_clusters g d n s = generate_ellipsoid_clusters g' d n s.
Proof. rewrite !generate_unfold. reflexivity. Qed.

Lemma count_label_repeat_same l n :
  PrimFloat.eqb l l = true -> count_label l (repeat l n) = n.
Proof.
  intros Hl. unfold count_label. induction n as [|n IH]; cbn; [reflexivity|].
  rewrite Hl. cbn. now rewrite IH.
Qed.

Lemma count_label_repeat_other l l' n :
  PrimFloat.eqb l' l = false -> count_label l (repeat l' n) = 0.
Proof.
  intros Hl. unfold count_label. induction n as [|n IH]; cbn; [reflexivity|].
  now rewrite Hl.
Qed.

Lemma count_label_app l a b :
  count_label l (a ++ b) = count_label l a + count_label l b.
Proof. unfold count_label. now rewrite filter_app, length_app. Qed.

Context {L : NumpyRandomLaws R}.

Lemma class0_sample_length n s : length (class0_sample n s) = n.
Proof. apply multivariate_normal_size. Qed.

Lemma class1_sample_length d n s : length (class1_sample d n s) = n.
Proof. apply multivariate_normal_size. Qed.

(** The two halves of what a call returns. *)
Lemma generate_blocks g d n s :
  let '(X, y) := fst (generate_ellipsoid_clusters g d n s) in
  length X = 2 * n /\
  firstn n X = class0_sample n s /\ firstn n y = repeat 0%float n.
Proof.
  rewrite generate_unfold; cbn [fst].
  pose proof (class0_sample_length n s) as H0.
  pose proof (class1_sample_length d n s) as H1.
  assert (Hz : length (Np.zeros n) = n) by apply repeat_length.
  repeat split.
  - rewrite length_app. lia.
  - rewrite firstn_app, H0, Nat.sub_diag, firstn_O, app_nil_r.
    rewrite <- H0 at 1. apply firstn_all.
  - rewrite firstn_app, Hz, Nat.sub_diag, firstn_O, app_nil_r.
    rewrite <- Hz at 1. apply firstn_all.
Qed.

(** C4. The call returns [2n] points and [2n] labels, [n] of them 0 and [n]
    of them 1; the first [n] points are the class-0 draw and the last [n]
    the class-1 draw, and the label at each position is the class of the
    point at that position. *)
Theorem generate_shape (g : rng_state) (d : float) (n : nat) (s : float) :
  let '(X, y) := fst (generate_ellipsoid_clusters g d n s) in
  length X = 2 * n /\ length y = 2 * n /\
  count_label 0%float y = n /\ count_label 1%float y = n /\
  firstn n X = class0_sample n s /\ skipn n X = class1_sample d n s /\
  firstn n y = repeat 0%float n /\ skipn n y = repeat 1%float n /\
  (forall i, i < n ->
     nth_error X i = nth_error (class0_sample n s) i /\
     nth_error y i = Some 0%float) /\
  (forall i, i < n ->
     nth_error X (n + i) = nth_error (class1_sample d n s) i /\
     nth_error y (n + i) = Some 1%float).
Proof.
  rewrite generate_unfold; cbn [fst].
  pose proof (class0_sample_length n s) as H0.
  pose proof (class1_sample_length d n s) as H1.
  assert (Hz : length (Np.zeros n) = n) by apply repeat_length.
  assert (Ho : length (Np.ones n) = n) by apply repeat_length.
  repeat split.
  - rewrite length_app. lia.
  - rewrite length_app. lia.
  - rewrite count_label_app. unfold Np.zeros, Np.ones.
    rewrite count_label_repeat_same, count_label_repeat_other by reflexivity. lia.
  - rewrite count_label_app. unfold Np.zeros, Np.ones.
    rewrite count_label_repeat_same, count_label_repeat_other by reflexivity. lia.
  - rewrite firstn_app, H0, Nat.sub_diag, firstn_O, app_nil_r.
    rewrite <- H0 at 1. apply firstn_all.
  - rewrite skipn_app, H0, Nat.sub_diag. cbn [skipn].
    rewrite <- H0 at 1. rewrite skipn_all. reflexivity.
  - rewrite firstn_app, Hz, Nat.sub_diag, firstn_O, app_nil_r.
    rewrite <- Hz at 1. apply firstn_all.
  - rewrite skipn_app, Hz, Nat.sub_diag. cbn [skipn].
    rewrite <- Hz at 1. rewrite skipn_all. reflexivity.
  - rewrite nth_error_app1 by lia. reflexivity.
  - rewrite nth_error_app1 by lia. unfold Np.zeros.
    rewrite nth_error_repeat by lia. reflexivity.
  - rewrite nth_error_app2 by lia. f_equal. lia.
  - rewrite nth_error_app2 by lia. rewrite Hz.
    replace (n + i - n) with i by lia. unfold Np.ones.
    rewrite nth_error_repeat by lia. reflexivity.
Qed.

(** C10. The class-0 half does not depend on the shift distance: the first
    [n] points and the first [n] labels are the same for any two distances
    (and any two generator states the calls start from). *)
Theorem class0_block_independent_of_distance
  (g g' : rng_state) (d d' : float) (n : nat) (s : float) :
  firstn n (fst (fst (generate_ellipsoid_clusters g d n s))) =
  firstn n (fst (fst (generate_ellipsoid_clusters g' d' n s))) /\
  firstn n (snd (fst (generate_ellipsoid_clusters g d n s))) =
  firstn n (snd (fst (generate_ellipsoid_clusters g' d' n s))).
Proof.
  pose proof (generate_blocks g d n s) as H.
  pose proof (generate_blocks g' d' n s) as H'.
  destruct (fst (generate_ellipsoid_clusters g d n s)) as [X y].
  destruct (fst (generate_ellipsoid_clusters g' d' n s)) as [X' y'].
  cbn [fst snd].
  destruct H as (_ & HX & Hy).
  destruct H' as (_ & HX' & Hy').
  split; congruence.
Qed.

End GeneratorFacts.

(** ** From primitive floats to their specification *)

Module F64Facts.
Import SF SFFacts.
Local Open Scope float_scope.

Lemma is_nan_spec x : is_nan x = true <-> Prim2SF x = S754_nan.
Proof.
  unfold is_nan. rewrite eqb_spec. split.
  - intros H. destruct (Prim2SF x) eqn:E; try reflexivity;
      rewrite SFeqb_refl in H by discriminate; discriminate.
  - intros ->. reflexivity.
Qed.

Lemma is_finite_spec x : is_finite x = true <-> finite (Prim2SF x).
Proof.
  unfold is_finite, is_nan, is_infinity. rewrite !eqb_spec, abs_spec.
  change (Prim2SF infinity) with (S754_infinity false).
  destruct (Prim2SF x) as [s|s| |s m e] eqn:E; cbn [SFabs finite].
  - split; [auto | reflexivity].
  - destruct s; cbn; split; [discriminate | contradiction | discriminate | contradiction].
  - cbn; split; [discriminate | contradiction].
  - rewrite SFeqb_refl by discriminate. split; [auto | reflexivity].
Qed.

Lemma zero_leb x : nonneg (Prim2SF x) -> (0 <=? x) = true.
Proof. intros H. rewrite leb_spec. now apply SFFacts.leb_zero_nonneg. Qed.

Lemma leb_not_nan a b : (a <=? b) = true -> is_nan a = false /\ is_nan b = false.
Proof.
  rewrite leb_spec. intros H. apply SFleb_not_nan in H. destruct H as [Ha Hb].
  split; apply not_true_is_false; rewrite is_nan_spec; assumption.
Qed.

Lemma leb_refl a : is_nan a = false -> (a <=? a) = true.
Proof.
  intros H. rewrite leb_spec. apply SFleb_refl. intros E.
  apply is_nan_spec in E. congruence.
Qed.

Lemma leb_trans a b c : (a <=? b) = true -> (b <=? c) = true -> (a <=? c) = true.
Proof. rewrite !leb_spec. apply SFleb_trans. Qed.

Lemma leb_total a b :
  is_nan a = false -> is_nan b = false -> (a <=? b) = false -> (b <=? a) = true.
Proof.
  rewrite !leb_spec. intros Ha Hb. apply SFleb_total; intros E;
    apply is_nan_spec in E; congruence.
Qed.

Lemma not_nan_of_signed s x : signed s (Prim2SF x) -> is_nan x = false.
Proof.
  intros H. apply not_true_is_false. rewrite is_nan_spec. intros E.
  rewrite E in H. exact H.
Qed.

End F64Facts.

(** ** numpy's reductions *)

Section MinFacts.
Import F64Facts.
Local Open Scope float_scope.

Lemma minimum_cases a b :
  is_nan a = false -> is_nan b = false ->
  let m := Np.minimum a b in
  (m = a \/ m = b) /\ (m <=? a) = true /\ (m <=? b) = true.
Proof.
  intros Ha Hb. unfold Np.minimum. rewrite Ha, orb_false_r.
  destruct (a <=? b) eqn:E; cbn.
  - auto using leb_refl.
  - auto using leb_refl, leb_total.
Qed.

Lemma fold_minimum_least xs : forall acc,
  is_nan acc = false -> Forall (fun x => is_nan x = false) xs ->
  let m := fold_left Np.minimum xs acc in
  (m = acc \/ In m xs) /\ (m <=? acc) = true /\
  (forall x, In x xs -> (m <=? x) = true).
Proof.
  induction xs as [|b xs IH]; intros acc Ha Hxs; cbn.
  - split; [now left|]. split; [now apply leb_refl | contradiction].
  - inversion Hxs as [|? ? Hb Hxs']; subst.
    destruct (minimum_cases acc b Ha Hb) as (Hm & Hma & Hmb).
    assert (Hn : is_nan (Np.minimum acc b) = false).
    { destruct Hm as [-> | ->]; assumption. }
    destruct (IH (Np.minimum acc b) Hn Hxs') as (Hin & Hle & Hall).
    split; [|split].
    + destruct Hin as [E | Hin]; [|now right; right].
      rewrite E. destruct Hm as [-> | ->]; [now left | now right; left].
    + eapply leb_trans; eassumption.
    + intros x [<- | Hx]; [eapply leb_trans; eassumption | now apply Hall].
Qed.

(** [np.min] of an array without not-a-number returns an entry that is at
    most every entry. *)
Lemma min_least (l : list float) :
  l <> [] -> Forall (fun x => is_nan x = false) l ->
  exists m, Np.min l = Ok m /\ In m l /\ forall x, In x l -> (m <=? x) = true.
Proof.
  destruct l as [|a xs]; [congruence|]. intros _ H.
  inversion H as [|? ? Ha Hxs]; subst.
  destruct (fold_minimum_least xs a Ha Hxs) as (Hin & Hle & Hall).
  exists (fold_left Np.minimum xs a). split; [reflexivity|]. split.
  - destruct Hin as [-> | Hin]; [now left | now right].
  - intros x [<- | Hx]; auto.
Qed.

End MinFacts.

(** ** One step of the sweep *)

Section ExperimentFacts.
Context {R : NumpyRandom} {K : Sklearn} {M : Libm} {P : Matplotlib}.
Import F64Facts SF SFFacts.
Local Open Scope float_scope.

(** Of the three levels only 0.7 feeds the margin. *)
Lemma contour_rounds_levels xx yy Z s :
  contour_rounds xx yy Z s contour_levels =
  and_then
    (or_crash s (min_distance (class_1_contour xx yy Z 0.7) (class_0_contour xx yy Z 0.7)))
    (fun m => Done (record_margin s m)).
Proof.
  assert (H7 : forall s0, contour_round xx yy Z s0 0.7 =
    and_then
      (or_crash s0 (min_distance (class_1_contour xx yy Z 0.7) (class_0_contour xx yy Z 0.7)))
      (fun m => Done (record_margin s0 m))) by reflexivity.
  assert (H8 : forall s0, contour_round xx yy Z s0 0.8 = Done s0) by reflexivity.
  assert (H9 : forall s0, contour_round xx yy Z s0 0.9 = Done s0) by reflexivity.
  unfold contour_rounds, contour_levels. cbn [fold_left and_then].
  rewrite H7. destruct (or_crash s _) as [m|e s']; cbn [and_then]; [|reflexivity].
  rewrite H8. cbn [and_then]. apply H9.
Qed.

Lemma experiment_unfold s g d X y g' :
  generate_ellipsoid_clusters g d default_n_samples default_cluster_std = ((X, y), g') ->
  experiment s g d =
  and_then (or_crash (after_fit s X y) (confidence_surface (fit X y) X)) (fun grid =>
    and_then
      (or_crash (after_fit s X y)
         (min_distance (class_1_contour (fst (fst grid)) (snd (fst grid)) (snd grid) 0.7)
                       (class_0_contour (fst (fst grid)) (snd (fst grid)) (snd grid) 0.7)))
      (fun m => Done (record_margin (after_fit s X y) m, g'))).
Proof.
  intros Hg. unfold experiment, after_fit. rewrite Hg.
  unfold fit_logistic_regression. destruct (coef_0 (fit X y)) as [beta1 beta2].
  destruct (confidence_surface (fit X y) X) as [[[xx yy] Z]|e];
    cbn [and_then or_crash fst snd]; [|reflexivity].
  rewrite contour_rounds_levels.
  destruct (min_distance _ _); reflexivity.
Qed.

Lemma first_polyline_none cs :
  no_polyline cs = true <-> first_polyline cs = Raise IndexError.
Proof.
  unfold first_polyline, index. destruct cs as [|[|p c] cs]; cbn; split;
    solve [reflexivity | discriminate].
Qed.

Lemma first_polyline_exn cs e : first_polyline cs = Raise e -> e = IndexError.
Proof.
  unfold first_polyline, index. destruct cs as [|[|p c] cs]; cbn; congruence.
Qed.

Lemma min_exn l e : Np.min l = Raise e -> e = ValueError.
Proof. destruct l; cbn; congruence. Qed.

Lemma max_exn l e : Np.max l = Raise e -> e = ValueError.
Proof. destruct l; cbn; congruence. Qed.

Lemma min_distance_exn c1 c0 e :
  min_distance c1 c0 = Raise e -> e = IndexError \/ e = ValueError.
Proof.
  unfold min_distance.
  destruct (first_polyline c1) as [v1|e1] eqn:E1; cbn.
  - destruct (first_polyline c0) as [v0|e0] eqn:E0; cbn.
    + intros H. right. eapply min_exn, H.
    + intros [= <-]. left. eapply first_polyline_exn, E0.
  - intros [= <-]. left. eapply first_polyline_exn, E1.
Qed.

Lemma confidence_surface_exn model X e :
  confidence_surface model X = Raise e -> e = ValueError.
Proof.
  unfold confidence_surface.
  destruct (Np.min (map fst X)) eqn:E1; cbn; [|intros [= <-]; eapply min_exn, E1].
  destruct (Np.max (map fst X)) eqn:E2; cbn; [|intros [= <-]; eapply max_exn, E2].
  destruct (Np.min (map snd X)) eqn:E3; cbn; [|intros [= <-]; eapply min_exn, E3].
  destruct (Np.max (map snd X)) eqn:E4; cbn; [|intros [= <-]; eapply max_exn, E4].
  discriminate.
Qed.

(** A step ends normally or by an [IndexError] or a [ValueError]. *)
Lemma experiment_exn s g d e s' :
  experiment s g d = Crashed e s' -> e = IndexError \/ e = ValueError.
Proof.
  destruct (generate_ellipsoid_clusters g d default_n_samples default_cluster_std)
    as [[X y] g'] eqn:Hg.
  rewrite (experiment_unfold s g d X y g' Hg).
  destruct (confidence_surface (fit X y) X) as [grid|e1] eqn:E1; cbn.
  - destruct (min_distance _ _) as [m|e2] eqn:E2; cbn; [discriminate|].
    intros [= <- _]. eapply min_distance_exn, E2.
  - intros [= <- _]. right. eapply confidence_surface_exn, E1.
Qed.

(** Whatever happens after the fit, the six parameter series keep what the
    fit appended. *)
Lemma experiment_keeps_parameters s g d X y g' :
  generate_ellipsoid_clusters g d default_n_samples default_cluster_std = ((X, y), g') ->
  let s1 := after_fit s X y in
  let s2 := series_reached (experiment s g d) in
  beta0_list s2 = beta0_list s1 /\ beta1_list s2 = beta1_list s1 /\
  beta2_list s2 = beta2_list s1 /\ slope_list s2 = slope_list s1 /\
  intercept_list s2 = intercept_list s1 /\ loss_list s2 = loss_list s1.
Proof.
  intros Hg. cbv zeta. rewrite (experiment_unfold s g d X y g' Hg).
  destruct (confidence_surface (fit X y) X) as [grid|e1]; cbn; [|tauto].
  destruct (min_distance _ _) as [m|e2]; cbn; tauto.
Qed.

End ExperimentFacts.

(** ** The margin *)

Section MarginFacts.
Import F64Facts SF SFFacts.
Local Open Scope float_scope.

(** The distance between two finite points is a float that is at least
    zero, never not-a-number. *)
Lemma euclidean_signed u v :
  F64.finite_point u = true -> F64.finite_point v = true ->
  signed false (Prim2SF (euclidean u v)).
Proof.
  unfold F64.finite_point. rewrite !andb_true_iff, !is_finite_spec.
  intros [Hu0 Hu1] [Hv0 Hv1]. unfold euclidean. cbv zeta.
  rewrite sqrt_spec, add_spec, !mul_spec, !sub_spec.
  apply sqrt_signed_false, add_signed_false; apply mul_self_signed, sub_finite_not_nan;
    assumption.
Qed.

Lemma cdist_entries v1 v0 x :
  In x (concat (cdist v1 v0)) <->
  exists u v, In u v1 /\ In v v0 /\ x = euclidean u v.
Proof.
  unfold cdist. rewrite in_concat. split.
  - intros (row & Hrow & Hx). apply in_map_iff in Hrow. destruct Hrow as (u & <- & Hu).
    apply in_map_iff in Hx. destruct Hx as (v & <- & Hv). eauto.
  - intros (u & v & Hu & Hv & ->). exists (map (fun v' => euclidean u v') v0). split.
    + apply in_map_iff. eauto.
    + apply in_map_iff. eauto.
Qed.

Lemma cdist_nonempty v1 v0 : v1 <> [] -> v0 <> [] -> concat (cdist v1 v0) <> [].
Proof.
  destruct v1 as [|u v1]; [congruence|]. destruct v0 as [|v v0]; [congruence|].
  discriminate.
Qed.

(** The least distance between two non-empty polylines with finite
    vertices exists, is an entry of the distance matrix below every entry,
    and is at least zero. *)
Lemma least_distance v1 v0 :
  v1 <> [] -> v0 <> [] ->
  forallb F64.finite_point v1 = true -> forallb F64.finite_point v0 = true ->
  exists m, Np.min (concat (cdist v1 v0)) = Ok m /\
            is_minimum_entry m (cdist v1 v0) /\ (0 <=? m) = true.
Proof.
  intros H1 H0 F1 F0. rewrite forallb_forall in F1, F0.
  assert (Hs : forall x, In x (concat (cdist v1 v0)) -> signed false (Prim2SF x)).
  { intros x Hx. apply cdist_entries in Hx. destruct Hx as (u & v & Hu & Hv & ->).
    apply euclidean_signed; auto. }
  destruct (min_least (concat (cdist v1 v0))) as (m & Hm & Hin & Hle).
  - now apply cdist_nonempty.
  - apply Forall_forall. intros x Hx. eapply not_nan_of_signed, Hs, Hx.
  - exists m. split; [assumption|]. split; [split; assumption|].
    apply zero_leb, signed_false_nonneg, Hs, Hin.
Qed.

Context {R : NumpyRandom} {K : Sklearn} {M : Libm} {P : Matplotlib}.

(** C1. In a step whose two 0.7-level contours are not empty (each has a
    first polyline with at least one vertex, the vertices finite), the step
    ends normally and appends one margin width: the value [np.min] returns
    on the matrix of the Euclidean distances between the vertices of the first
    class-1 polyline and those of the first class-0 polyline.  That value is
    an entry of the matrix, at most every entry, and at least zero. *)
Theorem margin_width_is_least_vertex_distance
  (s : series) (g g' : rng_state) (d : float) (X : list point) (y : list float)
  (xx yy Z : list (list float)) (v1 v0 : path) :
  generate_ellipsoid_clusters g d default_n_samples default_cluster_std = ((X, y), g') ->
  confidence_surface (fit X y) X = Ok (xx, yy, Z) ->
  first_polyline (class_1_contour xx yy Z 0.7) = Ok v1 ->
  first_polyline (class_0_contour xx yy Z 0.7) = Ok v0 ->
  v1 <> [] -> v0 <> [] ->
  forallb F64.finite_point v1 = true -> forallb F64.finite_point v0 = true ->
  exists m s',
    experiment s g d = Done (s', g') /\
    margin_widths s' = margin_widths s ++ [m] /\
    Np.min (concat (cdist v1 v0)) = Ok m /\
    is_minimum_entry m (cdist v1 v0) /\
    (0 <=? m) = true.
Proof.
  intros Hg Hgrid Hv1 Hv0 N1 N0 F1 F0.
  destruct (least_distance v1 v0 N1 N0 F1 F0) as (m & Hm & Hmin & Hpos).
  exists m, (record_margin (after_fit s X y) m).
  rewrite (experiment_unfold s g d X y g' Hg), Hgrid. cbn [or_crash and_then fst snd].
  unfold min_distance. rewrite Hv1, Hv0. cbn [bind]. rewrite Hm. cbn [or_crash and_then].
  repeat split; try assumption; try apply Hmin.
  cbn [record_margin margin_widths]. unfold after_fit, fit_logistic_regression.
  destruct (coef_0 (fit X y)). reflexivity.
Qed.

(** C9. In a step where the class-1 or the class-0 contour at level 0.7
    has no polyline, taking the first polyline raises [IndexError]; nothing
    catches it, so the step and with it the whole sweep end there, and no
    margin width has been appended for the step. *)
Theorem empty_contour_raises
  (s : series) (g g' : rng_state) (d : float) (X : list point) (y : list float)
  (xx yy Z : list (list float)) :
  generate_ellipsoid_clusters g d default_n_samples default_cluster_std = ((X, y), g') ->
  confidence_surface (fit X y) X = Ok (xx, yy, Z) ->
  no_polyline (class_1_contour xx yy Z 0.7) = true \/
  no_polyline (class_0_contour xx yy Z 0.7) = true ->
  min_distance (class_1_contour xx yy Z 0.7) (class_0_contour xx yy Z 0.7)
    = Raise IndexError /\
  experiment s g d = Crashed IndexError (after_fit s X y) /\
  margin_widths (after_fit s X y) = margin_widths s /\
  forall rest, run_experiments (d :: rest) s g = Crashed IndexError (after_fit s X y).
Proof.
  intros Hg Hgrid Hempty.
  assert (Hmd : min_distance (class_1_contour xx yy Z 0.7) (class_0_contour xx yy Z 0.7)
                = Raise IndexError).
  { unfold min_distance.
    destruct (first_polyline (class_1_contour xx yy Z 0.7)) as [v1|e1] eqn:E1.
    - destruct Hempty as [H|H]; apply first_polyline_none in H; [congruence|].
      cbn [bind]. rewrite H. reflexivity.
    - apply first_polyline_exn in E1. subst. reflexivity. }
  assert (Hexp : experiment s g d = Crashed IndexError (after_fit s X y)).
  { rewrite (experiment_unfold s g d X y g' Hg), Hgrid. cbn [or_crash and_then fst snd].
    rewrite Hmd. reflexivity. }
  split; [assumption|]. split; [assumption|]. split.
  - unfold after_fit, fit_logistic_regression. destruct (coef_0 (fit X y)). reflexivity.
  - intros rest. unfold run_experiments. cbn [fold_left and_then fst snd].
    rewrite Hexp. induction rest as [|d' rest IH]; [reflexivity|]. cbn. exact IH.
Qed.

End MarginFacts.

Lemma margin_width_witness :
  exists m s',
    experiment (R := Lcg.rng) (K := Demo.sklearn 0.5 1 1 (fun _ => 0.75%float))
      (M := Demo.libm) (P := Demo.matplotlib Demo.red Demo.blue)
      empty_series 0%Z 0.25%float = Done (s', snd (Demo.drawn 0.25%float)) /\
    margin_widths s' = [m] /\
    Np.min (concat (cdist [(2, 2); (3, 2)] [(0, 0); (0, 1)]))%float = Ok m /\
    is_minimum_entry m (cdist [(2, 2); (3, 2)] [(0, 0); (0, 1)])%float /\
    (0 <=? m)%float = true.
Proof.
  pose (K := Demo.sklearn 0.5 1 1 (fun _ => 0.75%float)).
  apply (margin_width_is_least_vertex_distance
           (R := Lcg.rng) (K := K) (M := Demo.libm)
           (P := Demo.matplotlib Demo.red Demo.blue)
           empty_series 0%Z (snd (Demo.drawn 0.25%float)) 0.25%float
           (fst (fst (Demo.drawn 0.25%float))) (snd (fst (Demo.drawn 0.25%float)))
           (fst (fst (Demo.grid K 0.25%float))) (snd (fst (Demo.grid K 0.25%float)))
           (snd (Demo.grid K 0.25%float))).
  - vm_compute. reflexivity.
  - vm_compute. reflexivity.
  - reflexivity.
  - reflexivity.
  - discriminate.
  - discriminate.
  - reflexivity.
  - reflexivity.
Defined.

Lemma empty_contour_witness :
  min_distance Demo.nothing Demo.blue = Raise IndexError /\
  experiment (R := Lcg.rng) (K := Demo.sklearn 0.5 1 1 (fun _ => 0.5%float))
    (M := Demo.libm) (P := Demo.matplotlib Demo.nothing Demo.blue)
    empty_series 0%Z 0.25%float
  = Crashed IndexError
      (after_fit (K := Demo.sklearn 0.5 1 1 (fun _ => 0.5%float)) (M := Demo.libm)
         empty_series (fst (fst (Demo.drawn 0.25%float))) (snd (fst (Demo.drawn 0.25%float)))) /\
  margin_widths
    (after_fit (K := Demo.sklearn 0.5 1 1 (fun _ => 0.5%float)) (M := Demo.libm)
       empty_series (fst (fst (Demo.drawn 0.25%float))) (snd (fst (Demo.drawn 0.25%float))))
  = [] /\
  forall rest,
    run_experiments (R := Lcg.rng) (K := Demo.sklearn 0.5 1 1 (fun _ => 0.5%float))
      (M := Demo.libm) (P := Demo.matplotlib Demo.nothing Demo.blue)
      (0.25%float :: rest) empty_series 0%Z
    = Crashed IndexError
        (after_fit (K := Demo.sklearn 0.5 1 1 (fun _ => 0.5%float)) (M := Demo.libm)
           empty_series (fst (fst (Demo.drawn 0.25%float)))
           (snd (fst (Demo.drawn 0.25%float)))).
Proof.
  pose (K := Demo.sklearn 0.5 1 1 (fun _ => 0.5%float)).
  apply (empty_contour_raises
           (R := Lcg.rng) (K := K) (M := Demo.libm)
           (P := Demo.matplotlib Demo.nothing Demo.blue)
           empty_series 0%Z (snd (Demo.drawn 0.25%float)) 0.25%float
           (fst (fst (Demo.drawn 0.25%float))) (snd (fst (Demo.drawn 0.25%float)))
           (fst (fst (Demo.grid K 0.25%float))) (snd (fst (Demo.grid K 0.25%float)))
           (snd (Demo.grid K 0.25%float))).
  - vm_compute. reflexivity.
  - vm_compute. reflexivity.
  - left. reflexivity.
Defined.

(** ** The example generator obeys the generator's law *)

Lemma lcg_draw_length mean n : forall g, length (fst (Lcg.draw mean n g)) = n.
Proof.
  induction n as [|n IH]; intros g; cbn; [reflexivity|].
  specialize (IH (Lcg.next (Lcg.next g))).
  destruct (Lcg.draw mean n (Lcg.next (Lcg.next g))). cbn in *. now rewrite IH.
Qed.

Lemma lcg_laws : NumpyRandomLaws Lcg.rng.
Proof. constructor. intros mean cov n g. apply lcg_draw_length. Qed.

Lemma generate_shape_witness :
  let '(X, y) := fst (generate_ellipsoid_clusters (R := Lcg.rng) 7%Z 0.25%float 3 0.5%float) in
  length X = 6 /\ length y = 6 /\
  count_label 0%float y = 3 /\ count_label 1%float y = 3 /\
  firstn 3 X = class0_sample (R := Lcg.rng) 3 0.5%float /\
  skipn 3 X = class1_sample (R := Lcg.rng) 0.25%float 3 0.5%float /\
  firstn 3 y = repeat 0%float 3 /\ skipn 3 y = repeat 1%float 3 /\
  (forall i, i < 3 ->
     nth_error X i = nth_error (class0_sample (R := Lcg.rng) 3 0.5%float) i /\
     nth_error y i = Some 0%float) /\
  (forall i, i < 3 ->
     nth_error X (3 + i) = nth_error (class1_sample (R := Lcg.rng) 0.25%float 3 0.5%float) i /\
     nth_error y (3 + i) = Some 1%float).
Proof.
  exact (generate_shape (R := Lcg.rng) (L := lcg_laws) 7%Z 0.25%float 3 0.5%float).
Defined.

Lemma class0_block_witness :
  firstn 3 (fst (fst (generate_ellipsoid_clusters (R := Lcg.rng) 7%Z 0.25%float 3 0.5%float))) =
  firstn 3 (fst (fst (generate_ellipsoid_clusters (R := Lcg.rng) 99%Z 2%float 3 0.5%float))) /\
  firstn 3 (snd (fst (generate_ellipsoid_clusters (R := Lcg.rng) 7%Z 0.25%float 3 0.5%float))) =
  firstn 3 (snd (fst (generate_ellipsoid_clusters (R := Lcg.rng) 99%Z 2%float 3 0.5%float))).
Proof.
  exact (class0_block_independent_of_distance (R := Lcg.rng) (L := lcg_laws)
           7%Z 99%Z 0.25%float 2%float 3 0.5%float).
Defined.

(** ** Division by a zero coefficient *)

Section DivisionFacts.
Import F64Facts SF SFFacts.
Local Open Scope float_scope.

Lemma eqb_zero_spec b : (b =? 0) = true -> exists s, Prim2SF b = S754_zero s.
Proof.
  rewrite eqb_spec. change (Prim2SF 0) with (S754_zero false).
  destruct (Prim2SF b) as [s|s| |s m e]; cbn; try discriminate; eauto.
  all: destruct s; discriminate.
Qed.

(** IEEE division by zero returns an infinity or not-a-number. *)
Lemma div_by_zero_not_finite a b : (b =? 0) = true -> is_finite (a / b) = false.
Proof.
  intros Hb. destruct (eqb_zero_spec b Hb) as [s Hs].
  apply not_true_is_false. rewrite is_finite_spec, div_spec. unfold SF64div. rewrite Hs.
  destruct (Prim2SF a); cbn; tauto.
Qed.

Context {R : NumpyRandom} {K : Sklearn} {M : Libm} {P : Matplotlib}.

(** C8. In a step whose fitted [beta2] is zero, the two divisions raise
    nothing: as IEEE divisions of numpy floats they return an infinity or
    not-a-number.  These values are appended to [slope_list] and
    [intercept_list], the step goes on to the margin, and if it ends by an
    exception, that is not [ZeroDivisionError]. *)
Theorem zero_beta2_gives_non_finite_line
  (s : series) (g g' : rng_state) (d : float) (X : list point) (y : list float) :
  generate_ellipsoid_clusters g d default_n_samples default_cluster_std = ((X, y), g') ->
  (snd (coef_0 (fit X y)) =? 0) = true ->
  let beta0 := intercept_0 (fit X y) in
  let beta1 := fst (coef_0 (fit X y)) in
  let beta2 := snd (coef_0 (fit X y)) in
  is_finite (slope_of beta1 beta2) = false /\
  is_finite (intercept_of beta0 beta2) = false /\
  slope_list (series_reached (experiment s g d)) = slope_list s ++ [slope_of beta1 beta2] /\
  intercept_list (series_reached (experiment s g d)) =
    intercept_list s ++ [intercept_of beta0 beta2] /\
  forall s', experiment s g d <> Crashed ZeroDivisionError s'.
Proof.
  intros Hg Hz. cbv zeta.
  split; [now apply div_by_zero_not_finite|].
  split; [now apply div_by_zero_not_finite|].
  destruct (experiment_keeps_parameters s g d X y g' Hg) as (_ & _ & _ & Hs & Hi & _).
  rewrite Hs, Hi. unfold after_fit, fit_logistic_regression.
  destruct (coef_0 (fit X y)) as [beta1 beta2]. cbn [fst snd record_parameters
    slope_list intercept_list].
  split; [reflexivity|]. split; [reflexivity|].
  intros s' H. apply experiment_exn in H. destruct H; discriminate.
Qed.

End DivisionFacts.

Lemma zero_beta2_witness :
  is_finite (slope_of 1 0) = false /\
  is_finite (intercept_of 0.5 0) = false /\
  slope_list (series_reached
    (experiment (R := Lcg.rng) (K := Demo.sklearn 0.5 1 0 (fun _ => 0.75%float))
       (M := Demo.libm) (P := Demo.matplotlib Demo.red Demo.blue)
       empty_series 0%Z 0.25%float)) = [] ++ [slope_of 1 0] /\
  intercept_list (series_reached
    (experiment (R := Lcg.rng) (K := Demo.sklearn 0.5 1 0 (fun _ => 0.75%float))
       (M := Demo.libm) (P := Demo.matplotlib Demo.red Demo.blue)
       empty_series 0%Z 0.25%float)) = [] ++ [intercept_of 0.5 0] /\
  forall s',
    experiment (R := Lcg.rng) (K := Demo.sklearn 0.5 1 0 (fun _ => 0.75%float))
      (M := Demo.libm) (P := Demo.matplotlib Demo.red Demo.blue)
      empty_series 0%Z 0.25%float <> Crashed ZeroDivisionError s'.
Proof.
  apply (zero_beta2_gives_non_finite_line
           (R := Lcg.rng) (K := Demo.sklearn 0.5 1 0 (fun _ => 0.75%float))
           (M := Demo.libm) (P := Demo.matplotlib Demo.red Demo.blue)
           empty_series 0%Z (snd (Demo.drawn 0.25%float)) 0.25%float
           (fst (fst (Demo.drawn 0.25%float))) (snd (fst (Demo.drawn 0.25%float)))).
  - vm_compute. reflexivity.
  - reflexivity.
Defined.

(** A step whose fitted [beta2] is zero ends normally, with the slope and
    the intercept [-inf] in its series. *)
Lemma zero_beta2_step_ends_normally :
  snd (coef_0 (Sklearn := Demo.sklearn 0.5 1 0 (fun _ => 0.75%float)) tt) = 0%float /\
  match
    experiment (R := Lcg.rng) (K := Demo.sklearn 0.5 1 0 (fun _ => 0.75%float))
      (M := Demo.libm) (P := Demo.matplotlib Demo.red Demo.blue)
      empty_series 0%Z 0.25%float
  with
  | Done (s', _) =>
      slope_list s' = [neg_infinity] /\ intercept_list s' = [neg_infinity] /\
      length (margin_widths s') = 1
  | Crashed _ _ => False
  end.
Proof. split; [reflexivity|]. vm_compute. repeat split; reflexivity. Qed.

(** ** The shift distances *)

Section LinspaceFacts.
Import F64Facts SF SFFacts.
Local Open Scope float_scope.

Lemma arange_length n : length (Np.arange n) = n.
Proof. unfold Np.arange. now rewrite length_map, length_seq. Qed.

Lemma set_last_length y v : y <> [] -> length (Np.set_last y v) = length y.
Proof.
  intros Hy. unfold Np.set_last. rewrite length_app, removelast_firstn_len, length_firstn.
  destruct y; [congruence|]. cbn. lia.
Qed.


Lemma set_last_last y v :
  y <> [] -> nth_error (Np.set_last y v) (length y - 1) = Some v.
Proof.
  intros Hy. unfold Np.set_last. rewrite removelast_firstn_len.
  rewrite nth_error_app2 by (rewrite length_firstn; lia).
  rewrite length_firstn. assert (0 < length y)%nat by (destruct y; [congruence|cbn; lia]).
  replace (length y - 1 - Nat.min (Nat.pred (length y)) (length y))%nat with 0%nat by lia.
  reflexivity.
Qed.

(** For at least two values [linspace] is the list of its entries, the
    last replaced by [stop]. *)
Lemma linspace_unfold start stop num :
  (2 <= num)%nat ->
  Np.linspace start stop num =
  Np.set_last (map (Np.linspace_entry start stop num) (seq 0 num)) stop.
Proof.
  intros Hn. unfold Np.linspace, Np.linspace_entry, Np.linspace_step, Np.arange.
  destruct (Nat.ltb_spec 0 (num - 1)); [|lia].
  destruct (Nat.ltb_spec 1 num); [|lia].
  f_equal. destruct ((stop - start) / F64.of_nat (num - 1) =? 0);
    rewrite !map_map; reflexivity.
Qed.

Lemma linspace_length start stop num : length (Np.linspace start stop num) = num.
Proof.
  destruct (le_lt_dec 2 num) as [Hn|Hn].
  - rewrite linspace_unfold by assumption. rewrite set_last_length.
    + now rewrite length_map, length_seq.
    + destruct num as [|[|n]]; [lia|lia|discriminate].
  - unfold Np.linspace. destruct (Nat.ltb_spec 1 num); [lia|].
    destruct (0 <? num - 1)%nat; [destruct (_ =? 0)|];
      now rewrite !length_map, arange_length.
Qed.


Lemma linspace_last start stop num :
  (2 <= num)%nat -> nth_error (Np.linspace start stop num) (num - 1) = Some stop.
Proof.
  intros Hn. rewrite linspace_unfold by assumption.
  pose proof (set_last_last (map (Np.linspace_entry start stop num) (seq 0 num)) stop) as H.
  rewrite length_map, length_seq in H. apply H.
  destruct num as [|[|n]]; [lia|lia|discriminate].
Qed.

Lemma eqb_refl_of_not_nan x : Prim2SF x <> S754_nan -> (x =? x) = true.
Proof. intros H. rewrite eqb_spec. now apply SFeqb_refl. Qed.


Lemma sub_finite_inv p e x y : finite (SFsub p e x y) -> y <> S754_nan.
Proof. destruct x, y; cbn; try tauto; discriminate. Qed.

Lemma mul_zero_l p e s y : finite y -> exists t, SFmul p e (S754_zero s) y = S754_zero t.
Proof. destruct y; cbn; try tauto; eauto. Qed.


(** Adding a zero changes nothing but, possibly, the sign of a zero. *)
Lemma add_zero_l_eqb z a :
  (exists s, Prim2SF z = S754_zero s) -> Prim2SF a <> S754_nan -> (z + a =? a) = true.
Proof.
  intros [s Hz] Ha. rewrite eqb_spec, add_spec. unfold SF64add. rewrite Hz.
  destruct (Prim2SF a) as [t|t| |t m e] eqn:E; try congruence.
  - destruct s, t; reflexivity.
  - cbn. destruct t; reflexivity.
  - cbn [SFadd]. apply SFeqb_refl. discriminate.
Qed.


End LinspaceFacts.

(** ** The sweep *)

Section SweepFacts.
Context {R : NumpyRandom} {K : Sklearn} {M : Libm} {P : Matplotlib}.
Local Open Scope float_scope.











End SweepFacts.


(** The record count rests on what the contouring returns: with a routine
    that finds no polygon in the class-1 band, the entry point's sweep ends in
    its first step by an [IndexError], one set of parameters recorded and no
    margin width. *)
Lemma entry_point_without_contour :
  exists s,
    main (R := Lcg.rng) (K := Demo.sklearn 0.5 1 1 (fun _ => 0.75%float))
      (M := Demo.libm) (P := Demo.matplotlib Demo.nothing Demo.blue) 5%Z
    = Crashed IndexError s /\
    length (beta0_list s) = 1 /\ margin_widths s = [].
Proof.
  eexists. split; [vm_compute; reflexivity|]. split; reflexivity.
Qed.


(** ** Rounding is monotone *)

(** [SpecFloat] defines the sum of two floats by shifting the bits beyond
    the 53rd out of the exact sum and rounding what is left.  Read on
    integers, that is a division with a remainder, and it is monotone. *)
Module RoundFacts.
Import Round.
Local Open Scope Z_scope.

Lemma digits_bounds p :
  2 ^ (Zpos (digits2_pos p) - 1) <= Zpos p < 2 ^ Zpos (digits2_pos p).
Proof.
  induction p as [p IH|p IH|]; cbn [digits2_pos].
  - rewrite Pos2Z.inj_succ, Pos2Z.inj_xI.
    replace (Z.succ (Zpos (digits2_pos p)) - 1) with (Z.succ (Zpos (digits2_pos p) - 1)) by lia.
    rewrite !Z.pow_succ_r by lia.
    generalize dependent (2 ^ (Z.pos (digits2_pos p) - 1)). intros a.
    generalize (2 ^ Z.pos (digits2_pos p)). intros b IH. lia.
  - rewrite Pos2Z.inj_succ. change (Zpos p~0) with (2 * Zpos p).
    replace (Z.succ (Zpos (digits2_pos p)) - 1) with (Z.succ (Zpos (digits2_pos p) - 1)) by lia.
    rewrite !Z.pow_succ_r by lia.
    generalize dependent (2 ^ (Z.pos (digits2_pos p) - 1)). intros a.
    generalize (2 ^ Z.pos (digits2_pos p)). intros b IH. lia.
  - cbn. lia.
Qed.

Lemma digits_unique p d :
  2 ^ (d - 1) <= Zpos p < 2 ^ d -> Zpos (digits2_pos p) = d.
Proof.
  intros [Hl Hu]. pose proof (digits_bounds p) as [Bl Bu].
  assert (0 < d).
  { destruct (Z.ltb_spec 0 d); [assumption|].
    destruct (Z.eqb_spec d 0) as [->|]; [cbn in Hu; lia|].
    rewrite Z.pow_neg_r in Hu by lia. lia. }
  destruct (Z.lt_trichotomy (Zpos (digits2_pos p)) d) as [Hlt|[Heq|Hgt]]; [|assumption|].
  - assert (2 ^ Zpos (digits2_pos p) <= 2 ^ (d - 1)) by (apply Z.pow_le_mono_r; lia). lia.
  - assert (2 ^ d <= 2 ^ (Zpos (digits2_pos p) - 1)) by (apply Z.pow_le_mono_r; lia). lia.
Qed.

Lemma shifted_0 K : 0 <= K -> shifted K 0 {| shr_m := K; shr_r := false; shr_s := false |}.
Proof.
  intros HK. exists 0. cbn. repeat split; try lia; try discriminate.
Qed.

Lemma shifted_step K j r : 0 <= j -> shifted K j r -> shifted K (j + 1) (shr_1 r).
Proof.
  intros Hj (l & Hl & HK & Hs & Hm). destruct r as [m b s]. cbn [shr_m shr_r shr_s] in *.
  assert (HP : 0 < 2 ^ j) by (apply Z.pow_pos_nonneg; lia).
  unfold shifted. rewrite Z.pow_add_r, Z.pow_1_r by lia.
  generalize dependent (2 ^ j). intros P Hl HK HP.
  exists (Z.b2z b * P + l).
  assert (Hs' : (b || s = true) <-> Z.b2z b * P + l <> 0).
  { destruct b; cbn [orb Z.b2z]; [split; [lia|reflexivity]|].
    rewrite Hs. split; lia. }
  destruct m as [|[p|p|]|p]; cbn [shr_1 shr_m shr_r shr_s]; try lia.
  - destruct b; cbn [Z.b2z] in *; repeat split; try lia; apply Hs'.
  - rewrite Pos2Z.inj_xI in HK. destruct b; cbn [Z.b2z] in *; repeat split; try lia; apply Hs'.
  - change (Zpos p~0) with (2 * Zpos p) in HK.
    destruct b; cbn [Z.b2z] in *; repeat split; try lia; apply Hs'.
  - destruct b; cbn [Z.b2z] in *; repeat split; try lia; apply Hs'.
Qed.

Lemma shifted_iter K p : forall j r,
  0 <= j -> shifted K j r -> shifted K (j + Zpos p) (iter_pos shr_1 p r).
Proof.
  induction p as [p IH|p IH|]; intros j r Hj H; cbn [iter_pos].
  - replace (j + Zpos p~1) with (j + 1 + Zpos p + Zpos p) by lia.
    apply IH; [lia|]. apply IH; [lia|]. now apply shifted_step.
  - replace (j + Zpos p~0) with (j + Zpos p + Zpos p) by lia.
    apply IH; [lia|]. now apply IH.
  - now apply shifted_step.
Qed.

Lemma quotient_unique x y l1 l2 P :
  0 <= l1 < P -> 0 <= l2 < P -> x * P + l1 = y * P + l2 -> x = y /\ l1 = l2.
Proof.
  intros H1 H2 E. assert (x = y) by (destruct (Z.lt_trichotomy x y) as [|[|]]; nia).
  subst. lia.
Qed.

Lemma quotient_le x y l1 l2 P :
  0 <= l1 < P -> 0 <= l2 < P -> x * P + l1 <= y * P + l2 -> x < y \/ (x = y /\ l1 <= l2).
Proof.
  intros H1 H2 E. destruct (Z.lt_trichotomy x y) as [|[|]]; [now left | right; subst; lia | nia].
Qed.

Lemma shifted_unique K j r1 r2 : 0 <= j -> shifted K j r1 -> shifted K j r2 -> r1 = r2.
Proof.
  intros Hj (l1 & Hl1 & HK1 & Hs1 & Hm1) (l2 & Hl2 & HK2 & Hs2 & Hm2).
  destruct r1 as [m1 b1 s1], r2 as [m2 b2 s2]. cbn [shr_m shr_r shr_s] in *.
  generalize dependent (2 ^ j). intros P Hl1 HK1 Hl2 HK2.
  destruct (quotient_unique (2 * m1 + Z.b2z b1) (2 * m2 + Z.b2z b2) l1 l2 P Hl1 Hl2)
    as [E El]; [lia|]. subst l2.
  assert (m1 = m2 /\ b1 = b2) as [-> ->].
  { destruct b1, b2; cbn [Z.b2z] in E; split; solve [lia | reflexivity | exfalso; lia]. }
  f_equal. destruct s1, s2; try reflexivity.
  - symmetry. apply Hs2, Hs1. reflexivity.
  - apply Hs1, Hs2. reflexivity.
Qed.

Lemma shifted_scale K j c r :
  0 <= j -> 0 <= c -> shifted K j r -> shifted (K * 2 ^ c) (j + c) r.
Proof.
  intros Hj Hc (l & Hl & HK & Hs & Hm).
  assert (HP : 0 < 2 ^ j) by (apply Z.pow_pos_nonneg; lia).
  assert (HC : 0 < 2 ^ c) by (apply Z.pow_pos_nonneg; lia).
  exists (l * 2 ^ c). rewrite Z.pow_add_r by lia. repeat split; try nia.
  - intros H. apply Hs in H. nia.
  - intros H. apply Hs. nia.
Qed.

Lemma shr_shifted K e n :
  0 <= K -> 0 <= n ->
  shifted K n (fst (shr {| shr_m := K; shr_r := false; shr_s := false |} e n)) /\
  snd (shr {| shr_m := K; shr_r := false; shr_s := false |} e n) = e + n.
Proof.
  intros HK Hn. destruct n as [|p|p]; cbn [shr fst snd]; try lia.
  - split; [now apply shifted_0 | lia].
  - split; [|reflexivity]. apply (shifted_iter K p 0); [lia | now apply shifted_0].
Qed.


Lemma rounded_bounds r : shr_m r <= rounded r <= shr_m r + 1.
Proof. destruct r as [m [|] [|]]; cbn; try destruct (Z.even m); lia. Qed.

Lemma rounded_exact m : rounded {| shr_m := m; shr_r := false; shr_s := false |} = m.
Proof. reflexivity. Qed.

Lemma rounded_down m s : rounded {| shr_m := m; shr_r := false; shr_s := s |} = m.
Proof. destruct s; reflexivity. Qed.

Lemma rounded_up m : rounded {| shr_m := m; shr_r := true; shr_s := true |} = m + 1.
Proof. reflexivity. Qed.

(** Rounding to nearest, ties to even, is monotone. *)
Lemma rounded_mono K1 K2 j r1 r2 :
  0 <= j -> shifted K1 j r1 -> shifted K2 j r2 -> K1 <= K2 -> rounded r1 <= rounded r2.
Proof.
  intros Hj (l1 & Hl1 & HK1 & Hs1 & Hm1) (l2 & Hl2 & HK2 & Hs2 & Hm2) HK.
  pose proof (rounded_bounds r1) as B1. pose proof (rounded_bounds r2) as B2.
  destruct r1 as [m1 b1 s1], r2 as [m2 b2 s2]. cbn [shr_m shr_r shr_s] in *.
  generalize dependent (2 ^ j). intros P Hl1 HK1 Hl2 HK2.
  destruct (quotient_le (2 * m1 + Z.b2z b1) (2 * m2 + Z.b2z b2) l1 l2 P Hl1 Hl2) as [H|[H Hl]];
    [lia| |].
  - destruct (Z.lt_trichotomy m1 m2) as [Hm|[Hm|Hm]];
      [lia| |destruct b1, b2; cbn [Z.b2z] in H; lia].
    subst m2. destruct b1, b2; cbn [Z.b2z] in H; try lia.
    rewrite rounded_down. lia.
  - assert (m1 = m2 /\ b1 = b2) as [-> ->].
    { destruct b1, b2; cbn [Z.b2z] in H; split; solve [lia | reflexivity | exfalso; lia]. }
    destruct b2; [|rewrite !rounded_down; lia].
    destruct s1, s2; try lia; rewrite ?rounded_up; lia.
Qed.

Lemma fexp_eq x : fexp prec emax x = Z.max (x - 53) (-1074).
Proof. reflexivity. Qed.

Lemma digits_mono p q : Zpos p <= Zpos q -> Zpos (digits2_pos p) <= Zpos (digits2_pos q).
Proof.
  intros H. pose proof (digits_bounds p) as [Bp _]. pose proof (digits_bounds q) as [_ Bq].
  destruct (Z.le_gt_cases (Zpos (digits2_pos p)) (Zpos (digits2_pos q))) as [|Hgt]; [assumption|].
  assert (2 ^ Zpos (digits2_pos q) <= 2 ^ (Zpos (digits2_pos p) - 1))
    by (apply Z.pow_le_mono_r; lia).
  lia.
Qed.

(** The mantissa left after the bits beyond the 53rd were shifted out. *)
Lemma shifted_mantissa p r :
  53 < Zpos (digits2_pos p) -> shifted (Zpos p) (Zpos (digits2_pos p) - 53) r ->
  2 ^ 52 <= shr_m r < 2 ^ 53.
Proof.
  intros Hk (l & Hl & HK & Hs & Hm). pose proof (digits_bounds p) as [Bl Bu].
  set (n := Zpos (digits2_pos p) - 53) in *.
  replace (Zpos (digits2_pos p) - 1) with (52 + n) in Bl by (unfold n; lia).
  replace (Zpos (digits2_pos p)) with (53 + n) in Bu by (unfold n; lia).
  rewrite Z.pow_add_r in Bl, Bu by (unfold n; lia).
  assert (HP : 0 < 2 ^ n) by (apply Z.pow_pos_nonneg; unfold n; lia).
  generalize dependent (2 ^ n). intros P Hl HK Bl Bu HP.
  assert (Z.b2z (shr_r r) = 0 \/ Z.b2z (shr_r r) = 1) as [Hb|Hb] by (destruct (shr_r r); auto);
    rewrite Hb in HK; split; nia.
Qed.


Lemma shr_fexp_spec (K : positive) E :
  0 <= fexp prec emax (Zpos (digits2_pos K) + E) - E ->
  exists r,
    shr_fexp prec emax (Zpos K) E loc_Exact =
      (r, E + (fexp prec emax (Zpos (digits2_pos K) + E) - E)) /\
    shifted (Zpos K) (fexp prec emax (Zpos (digits2_pos K) + E) - E) r.
Proof.
  intros Hn. unfold shr_fexp. cbn [Zdigits2 shr_record_of_loc].
  pose proof (shr_shifted (Zpos K) E _ ltac:(lia) Hn) as [H1 H2].
  destruct (shr _ E _) as [r e]. cbn [fst snd] in *. subst. eauto.
Qed.

Lemma shr_fexp_exact (K : positive) E :
  fexp prec emax (Zpos (digits2_pos K) + E) - E <= 0 ->
  shr_fexp prec emax (Zpos K) E loc_Exact =
    ({| shr_m := Zpos K; shr_r := false; shr_s := false |}, E).
Proof.
  intros Hn. unfold shr_fexp. cbn [Zdigits2 shr_record_of_loc].
  destruct (fexp prec emax (Zpos (digits2_pos K) + E) - E); try reflexivity. lia.
Qed.

Lemma round_at_emin_spec K :
  exists m e, rounds_to K m e /\ 0 < m /\ round_at_emin K = round_result m e.
Proof.
  unfold round_at_emin, binary_round_aux.
  assert (Hn : fexp prec emax (Zpos (digits2_pos K) + -1074) - -1074
               = Z.max (Zpos (digits2_pos K) - 53) 0) by (rewrite fexp_eq; lia).
  destruct (shr_fexp_spec K (-1074)) as (r & -> & Hr); [rewrite Hn; lia|].
  rewrite Hn in *. fold (rounded r).
  pose proof (digits_bounds K) as [Bl Bu].
  destruct (Z.le_gt_cases (Zpos (digits2_pos K)) 53) as [Hk|Hk].
  - (* at most 53 bits: nothing is shifted out *)
    rewrite Z.max_r in * by lia.
    assert (r = {| shr_m := Zpos K; shr_r := false; shr_s := false |}) as ->.
    { eapply shifted_unique; [|exact Hr|apply shifted_0]; lia. }
    rewrite rounded_exact. rewrite shr_fexp_exact by (rewrite fexp_eq; lia).
    assert (HK : Zpos K < 2 ^ 53).
    { assert (2 ^ Zpos (digits2_pos K) <= 2 ^ 53) by (apply Z.pow_le_mono_r; lia). lia. }
    exists (Zpos K), (-1074). split; [|split; [lia|reflexivity]].
    exists {| shr_m := Zpos K; shr_r := false; shr_s := false |}.
    rewrite Z.max_r by lia. split; [apply shifted_0; lia|]. split; [lia|].
    left. rewrite rounded_exact. repeat split; lia.
  - rewrite Z.max_l in * by lia.
    pose proof (shifted_mantissa K r ltac:(lia) Hr) as [Ql Qu].
    pose proof (rounded_bounds r) as [Rl Ru].
    destruct (Z.eq_dec (rounded r) (2 ^ 53)) as [E|E].
    + (* the carry *)
      exists (2 ^ 52), (-1074 + (Zpos (digits2_pos K) - 53) + 1).
      split; [|split; [reflexivity|]].
      * exists r. rewrite Z.max_l by lia. split; [exact Hr|]. split; [lia|]. right. auto.
      * assert (E' : rounded r = Zpos 9007199254740992) by (rewrite E; reflexivity).
        rewrite E'. unfold shr_fexp. cbn [Zdigits2 shr_record_of_loc].
        change (digits2_pos 9007199254740992) with 54%positive.
        rewrite fexp_eq.
        replace (Z.max (54 + (-1074 + (Zpos (digits2_pos K) - 53)) - 53) (-1074)
                 - (-1074 + (Zpos (digits2_pos K) - 53))) with 1 by lia.
        cbn [shr iter_pos shr_1 shr_m]. unfold round_result.
        change (emax - prec) with 971.
        replace (-1074 + (Zpos (digits2_pos K) - 53) + Zpos 1)
          with (-1074 + (Zpos (digits2_pos K) - 53) + 1) by lia.
        reflexivity.
    + assert (Rlt : rounded r < 2 ^ 53) by lia.
      destruct (rounded r) as [|q|q] eqn:Eq; try lia.
      exists (Zpos q), (-1074 + (Zpos (digits2_pos K) - 53)).
      split; [|split; [lia|]].
      * exists r. rewrite Z.max_l by lia. split; [exact Hr|]. split; [lia|]. left.
        rewrite Eq. auto.
      * assert (Dq : Zpos (digits2_pos q) = 53) by (apply digits_unique; cbn; lia).
        rewrite shr_fexp_exact by (rewrite Dq, fexp_eq; lia).
        reflexivity.
Qed.


(** Rounding is monotone: of two integers the greater rounds to the greater
    exponent, or to the same exponent and the greater mantissa. *)
Lemma rounds_to_mono K1 K2 m1 e1 m2 e2 :
  Zpos K1 <= Zpos K2 -> rounds_to K1 m1 e1 -> rounds_to K2 m2 e2 ->
  e1 < e2 \/ (e1 = e2 /\ m1 <= m2).
Proof.
  intros HK (r1 & S1 & Q1 & D1) (r2 & S2 & Q2 & D2).
  pose proof (digits_mono K1 K2 HK) as Hd.
  pose proof (rounded_bounds r1) as [A1 B1]. pose proof (rounded_bounds r2) as [A2 B2].
  change (2 ^ 53) with 9007199254740992 in *. change (2 ^ 52) with 4503599627370496 in *.
  destruct (Z.eq_dec (Z.max (Zpos (digits2_pos K1) - 53) 0)
                     (Z.max (Zpos (digits2_pos K2) - 53) 0)) as [En|En].
  - rewrite En in *.
    pose proof (rounded_mono (Zpos K1) (Zpos K2) (Z.max (Zpos (digits2_pos K2) - 53) 0)
                  r1 r2 ltac:(lia) S1 S2 HK) as R.
    lia.
  - assert (Hk2 : 53 < Zpos (digits2_pos K2)) by lia. specialize (Q2 Hk2). lia.
Qed.

Lemma round_result_leb m1 e1 m2 e2 :
  0 < m1 -> 0 < m2 -> e1 < e2 \/ (e1 = e2 /\ m1 <= m2) ->
  SFleb (round_result m1 e1) (round_result m2 e2) = true.
Proof.
  intros H1 H2 H. unfold round_result.
  destruct (Z.leb_spec e1 971), (Z.leb_spec e2 971); try reflexivity; [|exfalso; lia].
  unfold SFleb, SFcompare.
  destruct (Z.compare_spec e1 e2) as [E|E|E]; try reflexivity; [|exfalso; lia].
  fold (Pos.compare (Z.to_pos m1) (Z.to_pos m2)).
  destruct (Pos.compare_spec (Z.to_pos m1) (Z.to_pos m2)) as [C|C|C]; try reflexivity.
  exfalso. apply Pos2Z.pos_lt_pos in C. rewrite !Z2Pos.id in C by lia. lia.
Qed.

Lemma round_at_emin_mono K1 K2 :
  Zpos K1 <= Zpos K2 -> SFleb (round_at_emin K1) (round_at_emin K2) = true.
Proof.
  intros HK.
  destruct (round_at_emin_spec K1) as (m1 & e1 & R1 & P1 & ->).
  destruct (round_at_emin_spec K2) as (m2 & e2 & R2 & P2 & ->).
  apply round_result_leb; try assumption. eapply rounds_to_mono; eassumption.
Qed.

Lemma iter_xO M d : Zpos (Pos.iter xO M d) = Zpos M * 2 ^ Zpos d.
Proof.
  induction d as [|d IH] using Pos.peano_ind.
  - cbn [Pos.iter]. change (Zpos M~0) with (2 * Zpos M). change (2 ^ 1) with 2. lia.
  - rewrite Pos.iter_succ, Pos2Z.inj_succ, Z.pow_succ_r by lia.
    change (Zpos (Pos.iter xO M d)~0) with (2 * Zpos (Pos.iter xO M d)). rewrite IH. lia.
Qed.

Lemma digits_scaled M K c :
  0 <= c -> Zpos K = Zpos M * 2 ^ c -> Zpos (digits2_pos K) = Zpos (digits2_pos M) + c.
Proof.
  intros Hc HK. apply digits_unique. rewrite HK. pose proof (digits_bounds M) as [Bl Bu].
  replace (Zpos (digits2_pos M) + c - 1) with (Zpos (digits2_pos M) - 1 + c) by lia.
  rewrite !Z.pow_add_r by lia.
  assert (HP : 0 < 2 ^ c) by (apply Z.pow_pos_nonneg; lia).
  generalize dependent (2 ^ c). intros P _ HP.
  generalize dependent (2 ^ (Zpos (digits2_pos M) - 1)). intros a Bl.
  generalize dependent (2 ^ Zpos (digits2_pos M)). intros b Bu. nia.
Qed.

Lemma binary_round_aux_stage s m1 e1 m2 e2 :
  shr_fexp prec emax m1 e1 loc_Exact = shr_fexp prec emax m2 e2 loc_Exact ->
  binary_round_aux prec emax s m1 e1 loc_Exact = binary_round_aux prec emax s m2 e2 loc_Exact.
Proof. intros H. unfold binary_round_aux. now rewrite H. Qed.

(** Rounding depends on the value only: a mantissa at an exponent rounds as
    the integer that counts its value in units of [2^-1074]. *)
Lemma binary_round_at_emin M E K :
  -1074 <= E -> Zpos K = Zpos M * 2 ^ (E + 1074) ->
  binary_round prec emax false M E = round_at_emin K.
Proof.
  intros HE HK. unfold binary_round, round_at_emin.
  pose proof (digits_scaled M K (E + 1074) ltac:(lia) HK) as DK.
  assert (Ht : -1074 <= fexp prec emax (Zpos (digits2_pos M) + E)) by (rewrite fexp_eq; lia).
  assert (HnK : fexp prec emax (Zpos (digits2_pos K) + -1074) - -1074
                = fexp prec emax (Zpos (digits2_pos M) + E) + 1074).
  { rewrite !fexp_eq, DK. lia. }
  destruct (shr_fexp_spec K (-1074)) as (r' & EK & SK); [lia|].
  rewrite HnK in EK, SK.
  unfold shl_align.
  destruct (fexp prec emax (Zpos (digits2_pos M) + E) - E) as [|d|d] eqn:Ed.
  - apply binary_round_aux_stage. rewrite EK.
    destruct (shr_fexp_spec M E) as (r & EM & SM); [lia|].
    rewrite Ed in EM, SM. rewrite EM.
    f_equal; [|lia].
    apply (shifted_scale _ _ (E + 1074)) in SM; try lia.
    rewrite <- HK in SM.
    eapply shifted_unique; [|exact SM|]; [lia|].
    replace (0 + (E + 1074)) with (fexp prec emax (Zpos (digits2_pos M) + E) + 1074) by lia.
    exact SK.
  - apply binary_round_aux_stage. rewrite EK.
    destruct (shr_fexp_spec M E) as (r & EM & SM); [lia|].
    rewrite Ed in EM, SM. rewrite EM.
    f_equal; [|lia].
    apply (shifted_scale _ _ (E + 1074)) in SM; try lia.
    rewrite <- HK in SM.
    eapply shifted_unique; [|exact SM|]; [lia|].
    replace (Zpos d + (E + 1074)) with (fexp prec emax (Zpos (digits2_pos M) + E) + 1074) by lia.
    exact SK.
  - apply binary_round_aux_stage. rewrite EK.
    pose proof (iter_xO M d) as HM'.
    assert (DM' : Zpos (digits2_pos (Pos.iter xO M d)) = Zpos (digits2_pos M) + Zpos d)
      by (apply digits_scaled; [lia | exact HM']).
    rewrite shr_fexp_exact.
    2:{ rewrite DM'.
        replace (Zpos (digits2_pos M) + Zpos d + fexp prec emax (Zpos (digits2_pos M) + E))
          with (Zpos (digits2_pos M) + E) by lia.
        lia. }
    f_equal; [|lia].
    eapply shifted_unique; [| |exact SK]; [lia|].
    pose proof (shifted_scale (Zpos (Pos.iter xO M d)) 0
                  (fexp prec emax (Zpos (digits2_pos M) + E) + 1074)
                  _ ltac:(lia) ltac:(lia)
                  (shifted_0 (Zpos (Pos.iter xO M d)) ltac:(lia))) as S0.
    replace (0 + (fexp prec emax (Zpos (digits2_pos M) + E) + 1074))
      with (fexp prec emax (Zpos (digits2_pos M) + E) + 1074) in S0 by lia.
    replace (Zpos (Pos.iter xO M d) * 2 ^ (fexp prec emax (Zpos (digits2_pos M) + E) + 1074))
      with (Zpos K) in S0; [exact S0|].
    rewrite HK, HM', <- Z.mul_assoc, <- Z.pow_add_r by lia. f_equal. f_equal. lia.
Qed.


Lemma canonical_bounds m e :
  bounded prec emax m e = true ->
  -1074 <= e <= 971 /\ Zpos m < 2 ^ 53 /\ (-1074 < e -> 2 ^ 52 <= Zpos m).
Proof.
  unfold bounded, canonical_mantissa. rewrite andb_true_iff, Z.eqb_eq, Z.leb_le, fexp_eq.
  change (emax - prec) with 971. intros [Hc He].
  pose proof (digits_bounds m) as [Bl Bu].
  split; [lia|]. split.
  - assert (2 ^ Zpos (digits2_pos m) <= 2 ^ 53) by (apply Z.pow_le_mono_r; lia). lia.
  - intros H. replace (Zpos (digits2_pos m) - 1) with 52 in Bl by lia. exact Bl.
Qed.

Lemma units_finite m e : -1074 <= e -> 0 < Zpos m * 2 ^ (e + 1074).
Proof.
  intros H. assert (0 < 2 ^ (e + 1074)) by (apply Z.pow_pos_nonneg; lia). nia.
Qed.

(** The order of two counted values is the order of their counts. *)
Lemma units_compare x y :
  counted x -> counted y -> SFcompare x y = Some (units x ?= units y).
Proof.
  destruct x as [sx|sx| |[|] mx ex]; try contradiction;
  destruct y as [sy|sy| |[|] my ey]; try contradiction; cbn [counted units SFcompare];
    intros Hx Hy.
  - reflexivity.
  - destruct (canonical_bounds my ey Hy) as (He & _).
    pose proof (units_finite my ey ltac:(lia)). f_equal. symmetry. apply Z.compare_lt_iff. lia.
  - destruct (canonical_bounds mx ex Hx) as (He & _).
    pose proof (units_finite mx ex ltac:(lia)). f_equal. symmetry. apply Z.compare_gt_iff. lia.
  - destruct (canonical_bounds mx ex Hx) as (Hex & Ux & Lx).
    destruct (canonical_bounds my ey Hy) as (Hey & Uy & Ly).
    change (2 ^ 53) with 9007199254740992 in *. change (2 ^ 52) with 4503599627370496 in *.
    f_equal. destruct (Z.compare_spec ex ey) as [E|E|E].
    + subst ey. fold (Pos.compare mx my).
      assert (HP : 0 < 2 ^ (ex + 1074)) by (apply Z.pow_pos_nonneg; lia).
      generalize dependent (2 ^ (ex + 1074)). intros P HP.
      destruct (Pos.compare_spec mx my) as [C|C|C]; symmetry.
      * subst. apply Z.compare_refl.
      * apply Z.compare_lt_iff. apply Pos2Z.pos_lt_pos in C. nia.
      * apply Z.compare_gt_iff. apply Pos2Z.pos_lt_pos in C. nia.
    + symmetry. apply Z.compare_lt_iff.
      replace (ey + 1074) with (ex + 1074 + 1 + (ey - ex - 1)) by lia.
      rewrite (Z.pow_add_r 2 (ex + 1074 + 1)), (Z.pow_add_r 2 (ex + 1074) 1) by lia.
      change (2 ^ 1) with 2.
      assert (HP : 0 < 2 ^ (ex + 1074)) by (apply Z.pow_pos_nonneg; lia).
      assert (HQ : 0 < 2 ^ (ey - ex - 1)) by (apply Z.pow_pos_nonneg; lia).
      specialize (Ly ltac:(lia)).
      generalize dependent (2 ^ (ex + 1074)). intros P HP.
      generalize dependent (2 ^ (ey - ex - 1)). intros Q HQ.
      assert (A1 : Zpos mx * P < 9007199254740992 * P) by nia.
      assert (A2 : 9007199254740992 * P <= Zpos my * 2 * P) by nia.
      assert (A3 : Zpos my * 2 * P * 1 <= Zpos my * 2 * P * Q)
        by (apply Z.mul_le_mono_nonneg_l; nia).
      lia.
    + symmetry. apply Z.compare_gt_iff.
      replace (ex + 1074) with (ey + 1074 + 1 + (ex - ey - 1)) by lia.
      rewrite (Z.pow_add_r 2 (ey + 1074 + 1)), (Z.pow_add_r 2 (ey + 1074) 1) by lia.
      change (2 ^ 1) with 2.
      assert (HP : 0 < 2 ^ (ey + 1074)) by (apply Z.pow_pos_nonneg; lia).
      assert (HQ : 0 < 2 ^ (ex - ey - 1)) by (apply Z.pow_pos_nonneg; lia).
      specialize (Lx ltac:(lia)).
      generalize dependent (2 ^ (ey + 1074)). intros P HP.
      generalize dependent (2 ^ (ex - ey - 1)). intros Q HQ.
      assert (A1 : Zpos my * P < 9007199254740992 * P) by nia.
      assert (A2 : 9007199254740992 * P <= Zpos mx * 2 * P) by nia.
      assert (A3 : Zpos mx * 2 * P * 1 <= Zpos mx * 2 * P * Q)
        by (apply Z.mul_le_mono_nonneg_l; nia).
      lia.
Qed.

Lemma shl_align_fst mx ex ez :
  ez <= ex -> Zpos (fst (shl_align mx ex ez)) = Zpos mx * 2 ^ (ex - ez).
Proof.
  intros H. unfold shl_align. destruct (ez - ex) as [|d|d] eqn:E; cbn [fst]; try lia.
  - replace (ex - ez) with 0 by lia. change (2 ^ 0) with 1. lia.
  - rewrite iter_xO. f_equal. f_equal. lia.
Qed.

(** The sum of one and a counted value is the rounding of their exact sum. *)
Lemma add_one_counted x :
  counted x ->
  exists K, Zpos K = 2 ^ 1074 + units x /\ SFadd prec emax SFone x = round_at_emin K.
Proof.
  destruct x as [s|s| |[|] m e]; try contradiction; cbn [counted units]; intros Hx.
  - exists (Z.to_pos (2 ^ 1074)). split; [reflexivity|]. vm_compute. reflexivity.
  - destruct (canonical_bounds m e Hx) as (He & _).
    pose proof (units_finite m e ltac:(lia)) as Hu.
    assert (H1074 : 0 < 2 ^ 1074) by (apply Z.pow_pos_nonneg; lia).
    exists (Z.to_pos (2 ^ 1074 + Zpos m * 2 ^ (e + 1074))).
    split; [apply Z2Pos.id; lia|].
    unfold SFone, SFadd. cbv zeta. cbn [cond_Zopp Z.add binary_normalize].
    apply binary_round_at_emin; [lia|].
    rewrite Z2Pos.id by lia. rewrite Pos2Z.inj_add, !shl_align_fst by lia.
    rewrite Z.mul_add_distr_r, <- !Z.mul_assoc, <- !Z.pow_add_r by lia.
    replace (e - Z.min (-52) e + (Z.min (-52) e + 1074)) with (e + 1074) by lia.
    replace (-52 - Z.min (-52) e + (Z.min (-52) e + 1074)) with 1022 by lia.
    f_equal.
Qed.

Lemma round_at_emin_infinity K : SFleb (round_at_emin K) (S754_infinity false) = true.
Proof.
  destruct (round_at_emin_spec K) as (m & e & _ & _ & ->). unfold round_result.
  destruct (e <=? 971); reflexivity.
Qed.

(** Adding one is monotone on the values that are at least zero. *)
Lemma add_one_leb x y :
  valid_binary x = true -> valid_binary y = true ->
  SFleb (S754_zero false) x = true -> SFleb x y = true ->
  SFleb (SFadd prec emax SFone x) (SFadd prec emax SFone y) = true.
Proof.
  intros Vx Vy H0 Hxy.
  assert (Cx : counted x \/ x = S754_infinity false).
  { destruct x as [s|[|]| |[|] m e]; cbn in *; try discriminate; auto. }
  assert (Cy : counted y \/ y = S754_infinity false).
  { destruct Cx as [Cx| ->].
    - destruct x as [s|s| |[|] m e]; try contradiction;
        destruct y as [t|[|]| |[|] m' e']; cbn in *; try discriminate; auto.
    - destruct y as [t|[|]| |[|] m' e']; cbn in *; try discriminate; auto. }
  destruct Cy as [Cy| ->].
  - destruct Cx as [Cx| ->].
    + destruct (add_one_counted x Cx) as (K1 & HK1 & ->).
      destruct (add_one_counted y Cy) as (K2 & HK2 & ->).
      apply round_at_emin_mono. rewrite HK1, HK2.
      unfold SFleb in Hxy. rewrite (units_compare x y Cx Cy) in Hxy.
      destruct (Z.compare_spec (units x) (units y)); try discriminate; lia.
    + destruct y as [t|t| |[|] m' e']; try contradiction; discriminate.
  - destruct Cx as [Cx| ->]; [|reflexivity].
    destruct (add_one_counted x Cx) as (K1 & HK1 & ->).
    apply round_at_emin_infinity.
Qed.

End RoundFacts.

(** ** The separation of the cluster centres *)

Section SeparationFacts.
Import F64Facts SF SFFacts Round RoundFacts.
Local Open Scope float_scope.

Lemma IZR_pow2 c : (0 <= c)%Z -> IZR (2 ^ c) = powerRZ 2 c.
Proof.
  intros H. rewrite <- (Z2Nat.id c) by lia. now rewrite <- pow_IZR, pow_powerRZ.
Qed.

Lemma to_R_units x :
  counted (Prim2SF x) -> F64.to_R x = (IZR (units (Prim2SF x)) * powerRZ 2 (-1074))%R.
Proof.
  unfold F64.to_R. destruct (Prim2SF x) as [s|s| |[|] m e]; try contradiction;
    cbn [counted units cond_Zopp]; intros H.
  - now rewrite Rmult_0_l.
  - destruct (canonical_bounds m e H) as (He & _).
    rewrite mult_IZR, IZR_pow2 by lia. rewrite Rmult_assoc, <- powerRZ_add by lra.
    f_equal. f_equal. lia.
Qed.

Lemma counted_of_finite x :
  (0 <=? x) = true -> is_finite x = true -> counted (Prim2SF x).
Proof.
  rewrite leb_spec, is_finite_spec. change (Prim2SF 0) with (S754_zero false).
  pose proof (Prim2SF_valid x) as V.
  destruct (Prim2SF x) as [s|s| |[|] m e]; cbn; try discriminate; try contradiction; auto.
Qed.

Lemma leb_to_R a b :
  counted (Prim2SF a) -> counted (Prim2SF b) -> (a <=? b) = true ->
  (F64.to_R a <= F64.to_R b)%R.
Proof.
  intros Ca Cb H. rewrite !to_R_units by assumption.
  apply Rmult_le_compat_r; [left; apply powerRZ_lt; lra|]. apply IZR_le.
  rewrite leb_spec in H. unfold SFleb in H. rewrite (units_compare _ _ Ca Cb) in H.
  destruct (Z.compare_spec (units (Prim2SF a)) (units (Prim2SF b))); try discriminate; lia.
Qed.

Lemma ltb_to_R a b :
  counted (Prim2SF a) -> counted (Prim2SF b) -> (a <? b) = true ->
  (F64.to_R a < F64.to_R b)%R.
Proof.
  intros Ca Cb H. rewrite !to_R_units by assumption.
  apply Rmult_lt_compat_r; [apply powerRZ_lt; lra|]. apply IZR_lt.
  rewrite ltb_spec in H. unfold SFltb in H. rewrite (units_compare _ _ Ca Cb) in H.
  destruct (Z.compare_spec (units (Prim2SF a)) (units (Prim2SF b))); try discriminate; lia.
Qed.

Lemma ltb_leb a b : (a <? b) = true -> (a <=? b) = true.
Proof.
  rewrite ltb_spec, leb_spec. unfold SFltb, SFleb.
  destruct (SFcompare (Prim2SF a) (Prim2SF b)) as [[| |]|]; congruence.
Qed.

(** In binary64 the sum [1 + d] is monotone in [d >= 0]. *)
Lemma add_one_mono d1 d2 :
  (0 <=? d1) = true -> (d1 <=? d2) = true -> (1 + d1 <=? 1 + d2) = true.
Proof.
  rewrite !leb_spec, !add_spec. change (Prim2SF 0) with (S754_zero false).
  change (Prim2SF 1) with SFone. unfold SF64add. apply add_one_leb; apply Prim2SF_valid.
Qed.

Lemma to_R_one : F64.to_R 1 = 1%R.
Proof.
  unfold F64.to_R. change (Prim2SF 1) with (S754_finite false (Z.to_pos (2 ^ 52)) (-52)).
  cbn [cond_Zopp]. change (Zpos (Z.to_pos (2 ^ 52))) with (2 ^ 52)%Z.
  rewrite IZR_pow2 by lia. rewrite <- powerRZ_add by lra. reflexivity.
Qed.

(** The sum [1 + d] is exact when the counts of [d] and of the sum differ by
    the count of 1. *)
Lemma exact_sum d :
  counted (Prim2SF d) -> counted (Prim2SF (1 + d)) ->
  units (Prim2SF (1 + d)) = (2 ^ 1074 + units (Prim2SF d))%Z ->
  F64.to_R (1 + d) = (1 + F64.to_R d)%R.
Proof.
  intros Cd Cs H. rewrite !to_R_units, H, plus_IZR, Rmult_plus_distr_r by assumption.
  f_equal. rewrite IZR_pow2 by lia. rewrite <- powerRZ_add by lra. reflexivity.
Qed.

(** A float that is at least 1 and at most a finite float is a positive
    finite float. *)
Lemma counted_between c c' :
  (1 <=? c) = true -> (c <=? c') = true -> is_finite c' = true -> counted (Prim2SF c).
Proof.
  rewrite !leb_spec, is_finite_spec. change (Prim2SF 1) with SFone.
  pose proof (Prim2SF_valid c) as V.
  destruct (Prim2SF c) as [s|[|]| |[|] m e]; cbn; try discriminate; auto.
  destruct (Prim2SF c') as [t|t| |t m' e']; cbn; try discriminate; contradiction.
Qed.

(** The distance between [(c, c)] and [(1, 1)]. *)
Lemma euclidean_diagonal c :
  Exact.euclidean (c, c) (1%R, 1%R) = (Rabs (c - 1) * R_sqrt.sqrt 2)%R.
Proof.
  unfold Exact.euclidean. cbn [fst snd].
  replace ((c - 1) * (c - 1) + (c - 1) * (c - 1))%R with (Rsqr (c - 1) * 2)%R
    by (unfold Rsqr; ring).
  rewrite sqrt_mult_alt by apply Rle_0_sqr. now rewrite sqrt_Rsqr_abs.
Qed.

Lemma mean_separation_abs d :
  mean_separation d = (Rabs (F64.to_R (1 + d) - 1) * R_sqrt.sqrt 2)%R.
Proof.
  unfold mean_separation, real_point, class1_mean, class0_mean. cbn [fst snd].
  rewrite to_R_one. apply euclidean_diagonal.
Qed.

(** C5. For shift distances [0 <= d1 < d2] (the class-1 centre at [d2]
    finite), the centres the generator uses, [(1, 1)] and [(c, c)] with [c] the
    binary64 sum [1 + d], are at least as far apart at [d2] as at [d1]; they
    are strictly farther apart when the two sums differ, as they do when both
    are exact.  The separation at [d] is [(c - 1) * sqrt 2], and it is
    [d * sqrt 2] when the sum [1 + d] is exact; for any [d] whatever it is
    [|c - 1| * sqrt 2]. *)
Theorem separation_increasing (d1 d2 : float) :
  (0 <=? d1) = true -> (d1 <? d2) = true -> is_finite (1 + d2) = true ->
  (mean_separation d1 <= mean_separation d2)%R /\
  ((1 + d1 <? 1 + d2) = true -> (mean_separation d1 < mean_separation d2)%R) /\
  mean_separation d1 = ((F64.to_R (1 + d1) - 1) * R_sqrt.sqrt 2)%R /\
  mean_separation d2 = ((F64.to_R (1 + d2) - 1) * R_sqrt.sqrt 2)%R /\
  (F64.to_R (1 + d1) = (1 + F64.to_R d1)%R ->
   F64.to_R (1 + d2) = (1 + F64.to_R d2)%R ->
   mean_separation d1 = (F64.to_R d1 * R_sqrt.sqrt 2)%R /\
   mean_separation d2 = (F64.to_R d2 * R_sqrt.sqrt 2)%R /\
   (mean_separation d1 < mean_separation d2)%R) /\
  (forall d, mean_separation d = (Rabs (F64.to_R (1 + d) - 1) * R_sqrt.sqrt 2)%R).
Proof.
  intros H0 H12 Hf.
  assert (Hs : (0 < R_sqrt.sqrt 2)%R) by (apply sqrt_lt_R0; lra).
  pose proof (ltb_leb _ _ H12) as L12.
  pose proof (add_one_mono d1 d2 H0 L12) as M12.
  assert (M01 : (1 <=? 1 + d1) = true).
  { change 1 with (1 + 0) at 1. apply add_one_mono; [reflexivity | exact H0]. }
  assert (C1 : counted (Prim2SF (1 + d1))) by (eapply counted_between; eassumption).
  assert (C2 : counted (Prim2SF (1 + d2))).
  { eapply counted_between; [|apply leb_refl|exact Hf].
    - eapply leb_trans; eassumption.
    - apply (leb_not_nan _ _ M12). }
  assert (Cone : counted (Prim2SF 1)) by reflexivity.
  pose proof (leb_to_R _ _ Cone C1 M01) as R01. rewrite to_R_one in R01.
  pose proof (leb_to_R _ _ C1 C2 M12) as R12.
  assert (E1 : mean_separation d1 = ((F64.to_R (1 + d1) - 1) * R_sqrt.sqrt 2)%R).
  { rewrite mean_separation_abs, Rabs_pos_eq by lra. reflexivity. }
  assert (E2 : mean_separation d2 = ((F64.to_R (1 + d2) - 1) * R_sqrt.sqrt 2)%R).
  { rewrite mean_separation_abs, Rabs_pos_eq by lra. reflexivity. }
  split; [rewrite E1, E2; apply Rmult_le_compat_r; lra|].
  split.
  { intros Hlt. pose proof (ltb_to_R _ _ C1 C2 Hlt).
    rewrite E1, E2. apply Rmult_lt_compat_r; lra. }
  split; [exact E1|]. split; [exact E2|]. split; [|apply mean_separation_abs].
  intros X1 X2. rewrite E1, E2, X1, X2.
  assert (Fd2 : is_finite d2 = true).
  { apply is_finite_spec. apply is_finite_spec in Hf. rewrite add_spec in Hf.
    change (Prim2SF 1) with SFone in Hf. unfold SF64add in Hf.
    destruct (Prim2SF d2) as [s|s| |s m e]; cbn in *; auto. }
  assert (Cd2 : counted (Prim2SF d2)).
  { apply counted_of_finite; [|exact Fd2]. eapply leb_trans; eassumption. }
  assert (Cd1 : counted (Prim2SF d1)).
  { apply counted_of_finite; [exact H0|].
    apply is_finite_spec. apply is_finite_spec in Fd2.
    rewrite leb_spec in H0, L12. change (Prim2SF 0) with (S754_zero false) in H0.
    destruct (Prim2SF d1) as [s|[|]| |s m e]; cbn in *; try discriminate; auto.
    destruct (Prim2SF d2) as [t|t| |t m' e']; cbn in *; try discriminate; contradiction. }
  pose proof (ltb_to_R _ _ Cd1 Cd2 H12) as Rd.
  split; [f_equal; lra|]. split; [f_equal; lra|].
  apply Rmult_lt_compat_r; lra.
Qed.

End SeparationFacts.

(** The shift distances of the entry point's sweep are added to 1 without
    rounding: along that sweep the separation is [d * sqrt 2]. *)
Lemma sweep_sums_exact :
  Forall (fun d => F64.to_R (1 + d) = (1 + F64.to_R d)%R)
    [0.25; 0.5; 0.75; 1; 1.25; 1.5; 1.75; 2]%float.
Proof.
  repeat constructor; apply exact_sum; solve [exact I | reflexivity | vm_compute; reflexivity].
Qed.

Lemma separation_witness :
  (mean_separation 0.25 <= mean_separation 2)%R /\
  (mean_separation 0.25 < mean_separation 2)%R /\
  mean_separation 0.25 = (F64.to_R 0.25 * R_sqrt.sqrt 2)%R /\
  mean_separation 2 = (F64.to_R 2 * R_sqrt.sqrt 2)%R.
Proof.
  destruct (separation_increasing 0.25 2 eq_refl eq_refl eq_refl)
    as (H1 & H2 & _ & _ & H3 & _).
  destruct H3 as (E1 & E2 & _);
    [apply exact_sum; solve [reflexivity | vm_compute; reflexivity] ..|].
  exact (conj H1 (conj (H2 eq_refl) (conj E1 E2))).
Defined.

(** Two distinct shift distances whose sums [1 + d] round to the same float
    give the same centres, so the separation at the greater is not strictly
    greater; and between two negative shifts the order of the separations is
    reversed. *)
Lemma separation_counterexample :
  (1 <? 1.0000000000000002)%float = true /\
  class1_mean 1 = class1_mean 1.0000000000000002 /\
  mean_separation 1 = mean_separation 1.0000000000000002 /\
  (-2 <? -1)%float = true /\
  (mean_separation (-1) < mean_separation (-2))%R.
Proof.
  split; [reflexivity|]. split; [reflexivity|]. split; [reflexivity|].
  split; [reflexivity|].
  assert (Hs : (0 < R_sqrt.sqrt 2)%R) by (apply sqrt_lt_R0; lra).
  rewrite !mean_separation_abs.
  assert (E1 : F64.to_R (1 + -1) = 0%R) by reflexivity.
  assert (E2 : F64.to_R (1 + -2) = (-1)%R).
  { unfold F64.to_R.
    change (Prim2SF (1 + -2)) with (S754_finite true (Z.to_pos (2 ^ 52)) (-52)).
    cbn [cond_Zopp]. change (- Zpos (Z.to_pos (2 ^ 52)))%Z with (- 2 ^ 52)%Z.
    rewrite opp_IZR, IZR_pow2 by lia. rewrite Ropp_mult_distr_l_reverse.
    rewrite <- powerRZ_add by lra. cbn [Z.add powerRZ]. 
    change (2 ^ 0)%R with 1%R. reflexivity. }
  rewrite E1, E2.
  replace (0 - 1)%R with (- (1))%R by lra. replace (-1 - 1)%R with (- (2))%R by lra.
  rewrite !Rabs_Ropp, !Rabs_pos_eq by lra. lra.
Qed.

(** ** The loss *)

Section SumFacts.
Import F64Facts SF SFFacts.
Local Open Scope float_scope.

Lemma agree_sym x y : agree x y -> agree y x.
Proof. intros [->|(s & s' & -> & ->)]; [now left | right; eauto]. Qed.

Lemma agree_same_value a b :
  agree (Prim2SF a) (Prim2SF b) -> F64.same_value a b = true.
Proof.
  intros H. unfold F64.same_value.
  destruct (is_nan a) eqn:Ea.
  - apply is_nan_spec in Ea. destruct H as [H|(s & s' & H & _)]; [|congruence].
    assert (Eb : is_nan b = true) by (apply is_nan_spec; congruence).
    rewrite Eb. apply orb_true_r.
  - rewrite eqb_spec, agree_eqb; [reflexivity|assumption|].
    intros E. apply is_nan_spec in E. congruence.
Qed.

Lemma fold_add_opp xs : forall acc acc',
  agree (Prim2SF acc') (SFopp (Prim2SF acc)) ->
  agree (Prim2SF (fold_left PrimFloat.add (map PrimFloat.opp xs) acc'))
        (SFopp (Prim2SF (fold_left PrimFloat.add xs acc))).
Proof.
  induction xs as [|b xs IH]; intros acc acc' H; cbn; [assumption|].
  apply IH. rewrite !add_spec, opp_spec. unfold SF64add.
  eapply agree_trans; [apply add_agree, H | apply add_opp].
Qed.

Lemma sum_opp l :
  agree (Prim2SF (Np.sum (map PrimFloat.opp l))) (SFopp (Prim2SF (Np.sum l))).
Proof.
  destruct l as [|x xs]; cbn.
  - right. exists false, true. split; reflexivity.
  - apply fold_add_opp. rewrite opp_spec. apply agree_refl.
Qed.

(** The mean of the negated entries is the negated mean. *)
Lemma mean_opp l :
  F64.same_value (- Np.mean l) (Np.mean (map PrimFloat.opp l)) = true.
Proof.
  apply agree_same_value, agree_sym. unfold Np.mean.
  rewrite length_map, opp_spec, !div_spec. unfold SF64div.
  rewrite <- div_opp. apply div_agree, sum_opp.
Qed.

(** Not-a-number spreads through a sum. *)
Lemma fold_add_nan xs : forall acc,
  is_nan acc = true \/ Exists (fun x => is_nan x = true) xs ->
  is_nan (fold_left PrimFloat.add xs acc) = true.
Proof.
  induction xs as [|b xs IH]; intros acc H; cbn.
  - destruct H as [H|H]; [assumption | inversion H].
  - apply IH. destruct H as [H|H].
    + left. apply is_nan_spec. rewrite add_spec. apply is_nan_spec in H.
      unfold SF64add. rewrite H. reflexivity.
    + inversion H as [? ? Hb|? ? Hxs]; subst; [|now right].
      left. apply is_nan_spec. rewrite add_spec. apply is_nan_spec in Hb.
      unfold SF64add. rewrite Hb. destruct (Prim2SF acc); reflexivity.
Qed.

Lemma mean_nan l : Exists (fun x => is_nan x = true) l -> is_nan (- Np.mean l) = true.
Proof.
  intros H. assert (Hs : is_nan (Np.sum l) = true).
  { destruct l as [|x xs]; [inversion H|]. cbn. apply fold_add_nan.
    inversion H; subst; auto. }
  apply is_nan_spec. apply is_nan_spec in Hs.
  unfold Np.mean. rewrite opp_spec, div_spec. unfold SF64div. rewrite Hs. reflexivity.
Qed.

Lemma leb_zero_nonpos x : (x <=? 0) = true -> nonpos (Prim2SF x).
Proof.
  rewrite leb_spec. change (Prim2SF 0) with (S754_zero false).
  destruct (Prim2SF x) as [s|s| |s m e]; cbn; try discriminate; auto.
  all: destruct s; cbn; try discriminate; reflexivity.
Qed.

Lemma fold_add_nonpos xs : forall acc,
  nonpos (Prim2SF acc) -> Forall (fun x => nonpos (Prim2SF x)) xs ->
  nonpos (Prim2SF (fold_left PrimFloat.add xs acc)).
Proof.
  induction xs as [|b xs IH]; intros acc Ha Hxs; cbn; [assumption|].
  inversion Hxs; subst. apply IH; [|assumption].
  rewrite add_spec. now apply add_nonpos.
Qed.

(** The negated mean of entries that are at most zero is at least zero. *)
Lemma mean_nonpos l :
  l <> [] -> (Z.of_nat (length l) < 2 ^ 53)%Z ->
  Forall (fun x => nonpos (Prim2SF x)) l -> (0 <=? - Np.mean l) = true.
Proof.
  intros Hl Hb H. apply zero_leb. rewrite opp_spec. apply opp_nonpos.
  unfold Np.mean. rewrite div_spec.
  destruct (of_nat_positive (length l)) as (m & e & Hn).
  { destruct l; [congruence|cbn; lia]. }
  { assumption. }
  fold (F64.of_nat (length l)) in Hn. rewrite Hn. apply div_nonpos_pos.
  destruct l as [|x xs]; [congruence|]. cbn. inversion H; subst.
  now apply fold_add_nonpos.
Qed.

Lemma add_up_ext t : forall f g,
  (forall i, In i (Np.entries t) -> f i = g i) -> Np.add_up t f = Np.add_up t g.
Proof.
  induction t as [i|s|a IHa b IHb]; intros f g H; cbn in *.
  - apply H. now left.
  - reflexivity.
  - f_equal; [apply IHa | apply IHb]; intros i Hi; apply H, in_or_app; auto.
Qed.

(** Negation goes through a sum, whatever the order of the additions. *)
Lemma add_up_opp t : forall f g,
  (forall i, In i (Np.entries t) -> g i = - f i) ->
  agree (Prim2SF (Np.add_up t g)) (SFopp (Prim2SF (Np.add_up t f))).
Proof.
  induction t as [i|s|a IHa b IHb]; intros f g H; cbn [Np.add_up Np.entries] in *.
  - rewrite H by (now left). rewrite opp_spec. apply agree_refl.
  - destruct s; right; [exists true, false | exists false, true]; split; reflexivity.
  - rewrite !add_spec. unfold SF64add.
    eapply agree_trans; [|apply add_opp].
    eapply agree_trans.
    + apply add_agree, (IHa f g). intros i Hi. apply H, in_or_app. now left.
    + apply add_agree_r, (IHb f g). intros i Hi. apply H, in_or_app. now right.
Qed.

Lemma entries_from_first k i : In i (Np.entries (Np.from_first k)) -> (i <= k)%nat.
Proof.
  induction k as [|k IH]; cbn.
  - intros [<-|[]]. lia.
  - intros H. apply in_app_or in H. destruct H as [H|[<-|[]]]; [apply IH in H|]; lia.
Qed.

Lemma entries_left_to_right n i : In i (Np.entries (Np.left_to_right n)) -> (i < n)%nat.
Proof.
  destruct n as [|k]; cbn [Np.left_to_right]; [intros []|].
  intros H. apply entries_from_first in H. lia.
Qed.

Lemma entries_accumulated n i : In i (Np.entries (accumulated n)) -> (i < n)%nat.
Proof.
  induction n as [|k IH]; cbn; [intros []|].
  intros H. apply in_app_or in H. destruct H as [H|[<-|[]]]; [apply IH in H|]; lia.
Qed.

Lemma fold_left_from_first xs : forall x,
  fold_left PrimFloat.add xs x =
  Np.add_up (Np.from_first (length xs)) (fun i => nth i (x :: xs) nan).
Proof.
  induction xs as [|b xs IH] using rev_ind; intros x; [reflexivity|].
  rewrite fold_left_app, length_app. cbn [fold_left length]. rewrite Nat.add_1_r.
  cbn [Np.from_first Np.add_up]. rewrite IH.
  change (x :: xs ++ [b]) with ((x :: xs) ++ [b]). f_equal.
  - apply add_up_ext. intros i Hi. apply entries_from_first in Hi.
    rewrite app_nth1 by (cbn; lia). reflexivity.
  - rewrite app_nth2 by (cbn; lia). cbn [length]. now rewrite Nat.sub_diag.
Qed.

(** [Np.sum] adds in the order [left_to_right]. *)
Lemma sum_left_to_right a : Np.sum a = Np.sum_in (Np.left_to_right (length a)) a.
Proof.
  destruct a as [|x xs]; [reflexivity|].
  cbn [Np.sum length Np.left_to_right]. unfold Np.sum_in. apply fold_left_from_first.
Qed.

(** Accumulating from zero agrees with adding from the first entry on. *)
Lemma accumulated_agree n g :
  agree (Prim2SF (Np.add_up (accumulated n) g))
        (Prim2SF (Np.add_up (Np.left_to_right n) g)).
Proof.
  destruct n as [|k]; [apply agree_refl|]. cbn [Np.left_to_right].
  induction k as [|k IH].
  - cbn [accumulated Np.from_first Np.add_up]. rewrite add_spec. unfold SF64add.
    change (Prim2SF zero) with (S754_zero false). apply add_zero_agree.
  - change (accumulated (S (S k))) with (Np.Plus (accumulated (S k)) (Np.Entry (S k))).
    cbn [Np.from_first Np.add_up]. rewrite !add_spec. apply add_agree, IH.
Qed.

End SumFacts.

Lemma nth_error_combine {A B : Type} (a : list A) : forall (b : list B) i x y,
  nth_error a i = Some x -> nth_error b i = Some y ->
  nth_error (combine a b) i = Some (x, y).
Proof.
  induction a as [|a0 a IH]; intros [|b0 b] [|i] x y Ha Hb; cbn in *; try discriminate.
  - congruence.
  - now apply IH.
Qed.


Section LossFacts.
Context {K : Sklearn} {M : Libm}.
Import F64Facts SF SFFacts.
Local Open Scope float_scope.

Lemma log_likelihoods_map2 y : forall probabilities,
  log_likelihoods y probabilities = Np.map2 log_likelihood y probabilities.
Proof.
  unfold log_likelihoods, Np.map2.
  induction y as [|yi y IH]; intros [|pi probabilities]; cbn; try reflexivity.
  f_equal. apply IH.
Qed.

(** The term of the point [i] is the negated entry [i] of the array the
    code takes the mean of. *)
Lemma negative_log_likelihood_entry model X y i :
  length y = length X -> (i < length X)%nat ->
  negative_log_likelihood model X y i =
  - nth i (log_likelihoods y (class1_probabilities model X)) nan.
Proof.
  intros Hlen Hi. rewrite log_likelihoods_map2.
  unfold Np.map2, class1_probabilities, negative_log_likelihood.
  destruct (nth_error X i) as [x|] eqn:Ex; [|apply nth_error_None in Ex; lia].
  destruct (nth_error y i) as [yi|] eqn:Ey; [|apply nth_error_None in Ey; lia].
  erewrite nth_error_nth; [reflexivity|].
  rewrite nth_error_map.
  erewrite nth_error_combine; [reflexivity | exact Ey |].
  rewrite nth_error_map, Ex. reflexivity.
Qed.

Lemma log_likelihoods_length model X y :
  length y = length X ->
  length (log_likelihoods y (class1_probabilities model X)) = length X.
Proof.
  intros Hlen. rewrite log_likelihoods_map2. unfold Np.map2, class1_probabilities.
  rewrite length_map, length_combine, length_map. lia.
Qed.

(** Whatever the order of the additions, the mean of the terms agrees with
    the negated mean of the code's array. *)
Lemma mean_negative_log_likelihood_agree t model X y :
  length y = length X ->
  (forall i, In i (Np.entries t) -> (i < length X)%nat) ->
  agree (Prim2SF (mean_negative_log_likelihood t model X y))
        (Prim2SF (logistic_loss_in t model X y)).
Proof.
  intros Hlen Ht.
  unfold logistic_loss_in, mean_negative_log_likelihood, Np.mean_in, Np.sum_in. cbv zeta.
  rewrite (log_likelihoods_length model X y Hlen), opp_spec, !div_spec. unfold SF64div.
  rewrite <- div_opp. apply div_agree, add_up_opp.
  intros i Hi. apply negative_log_likelihood_entry; auto.
Qed.

(** C6. On a dataset of [N] points and [N] labels, [logistic_loss]
    returns the mean negative log-likelihood: the terms
    [-(y_i ln p_i + (1 - y_i) ln (1 - p_i))], where [y_i] is the label at
    position [i] and [p_i] the probability of class 1 the model predicts for
    the point at position [i], accumulated over the positions [0 .. N-1] and
    divided by [N].  The code negates the mean and the formula averages the
    negated terms; the two are the same IEEE value (up to the sign of a zero,
    or both not-a-number).  This holds of the loss as the model adds it up,
    from the first entry on, and likewise for any order in which [np.mean]
    may make the [N - 1] additions, the formula's terms being added in the
    same order. *)
Theorem logistic_loss_is_mean_negative_log_likelihood
  (model : estimator) (X : list point) (y : list float) :
  length y = length X ->
  F64.same_value
    (logistic_loss model X y)
    (mean_negative_log_likelihood (accumulated (length X)) model X y) = true /\
  logistic_loss model X y = logistic_loss_in (Np.left_to_right (length X)) model X y /\
  (forall t, Np.adds_each_once t (length X) = true ->
     F64.same_value
       (logistic_loss_in t model X y)
       (mean_negative_log_likelihood t model X y) = true).
Proof.
  intros Hlen.
  assert (Hcode : logistic_loss model X y =
                  logistic_loss_in (Np.left_to_right (length X)) model X y).
  { unfold logistic_loss, logistic_loss_in, Np.mean, Np.mean_in. cbv zeta.
    now rewrite sum_left_to_right, (log_likelihoods_length model X y Hlen). }
  split; [|split; [exact Hcode|]].
  - apply agree_same_value, agree_sym. rewrite Hcode.
    eapply agree_trans;
      [|apply mean_negative_log_likelihood_agree;
        [exact Hlen | apply entries_left_to_right]].
    unfold mean_negative_log_likelihood. rewrite !div_spec.
    apply div_agree, accumulated_agree.
  - intros t Ht. apply agree_same_value, agree_sym.
    apply mean_negative_log_likelihood_agree; [exact Hlen|].
    unfold Np.adds_each_once in Ht. apply andb_true_iff in Ht. destruct Ht as [Ht _].
    rewrite forallb_forall in Ht. intros i Hi. apply Nat.ltb_lt, Ht, Hi.
Qed.

Context {L : LibmLaws M}.

Lemma np_log_nonpos x : in_unit x = true -> nonpos (Prim2SF (np_log x)) /\ finite (Prim2SF (np_log x)).
Proof.
  unfold in_unit. rewrite andb_true_iff. intros [H0 H1].
  destruct (np_log_unit x H0 H1) as [Hle Hfin].
  split; [now apply leb_zero_nonpos | now apply is_finite_spec].
Qed.

(** With the label 0 or 1 and the probability strictly inside [(0, 1)], a
    point's log-likelihood is at most zero. *)
Lemma log_likelihood_nonpos yi pi :
  yi = 0 \/ yi = 1 -> interior_probability pi = true ->
  nonpos (Prim2SF (log_likelihood yi pi)).
Proof.
  unfold interior_probability. rewrite andb_true_iff. intros Hy [Hp Hq].
  destruct (np_log_nonpos pi Hp) as [Hp1 Hp2].
  destruct (np_log_nonpos (1 - pi) Hq) as [Hq1 Hq2].
  unfold log_likelihood. rewrite add_spec, !mul_spec. unfold SF64add, SF64mul.
  destruct Hy as [-> | ->].
  - change (1 - 0) with 1.
    change (Prim2SF 0) with (S754_zero false).
    change (Prim2SF 1) with (S754_finite false 4503599627370496 (-52)).
    apply add_nonpos; [now apply mul_zero_finite | now apply mul_pos_nonpos].
  - change (1 - 1) with 0.
    change (Prim2SF 0) with (S754_zero false).
    change (Prim2SF 1) with (S754_finite false 4503599627370496 (-52)).
    apply add_nonpos; [now apply mul_pos_nonpos | now apply mul_zero_finite].
Qed.

(** A prediction that is exactly right makes the point's log-likelihood
    not-a-number: one of its two products is [0 * -inf]. *)
Lemma log_likelihood_exact yi : yi = 0 \/ yi = 1 -> is_nan (log_likelihood yi yi) = true.
Proof.
  unfold log_likelihood. intros [-> | ->].
  - change (1 - 0) with 1. rewrite np_log_zero, np_log_one. reflexivity.
  - change (1 - 1) with 0. rewrite np_log_zero, np_log_one. reflexivity.
Qed.

Lemma map2_Forall (Q : float -> Prop) (f : float -> float -> float) y : forall p,
  length y = length p ->
  Forall (fun v => v = 0 \/ v = 1) y -> Forall (fun v => interior_probability v = true) p ->
  (forall yi pi, yi = 0 \/ yi = 1 -> interior_probability pi = true -> Q (f yi pi)) ->
  Forall Q (Np.map2 f y p).
Proof.
  unfold Np.map2. induction y as [|yi y IH]; intros [|pi p] Hlen Hy Hp Hf; cbn;
    try discriminate; constructor.
  - inversion Hy; inversion Hp; subst. cbn. auto.
  - inversion Hy; inversion Hp; subst. apply IH; auto.
Qed.

Lemma map2_length f y : forall p,
  length y = length p -> length (Np.map2 f y p) = length y.
Proof.
  unfold Np.map2. intros p H. rewrite length_map, length_combine. lia.
Qed.

Lemma map2_Exists (Q : float -> Prop) (f : float -> float -> float) y : forall p i yi pi,
  nth_error y i = Some yi -> nth_error p i = Some pi -> Q (f yi pi) ->
  Exists Q (Np.map2 f y p).
Proof.
  unfold Np.map2. induction y as [|y0 y IH]; intros [|p0 p] [|i] yi pi Hy Hp HQ; cbn in *;
    try discriminate.
  - injection Hy as <-. injection Hp as <-. now left.
  - right. eapply IH; eassumption.
Qed.

(** C7. On a dataset of [N >= 1] points with labels 0 and 1, the loss is
    at least zero whenever every predicted probability lies strictly between
    0 and 1.  Where a prediction is exactly right ([p_i = y_i], so [p_i] is 0
    or 1), the loss is not zero but not-a-number: the perfect, maximally
    confident limit is not a value the function returns. *)
Theorem logistic_loss_nonnegative_inside
  (model : estimator) (X : list point) (y : list float) :
  length y = length X ->
  Forall (fun v => v = 0 \/ v = 1) y ->
  (X <> [] -> (Z.of_nat (length X) < 2 ^ 53)%Z ->
   Forall (fun p => interior_probability p = true) (class1_probabilities model X) ->
   (0 <=? logistic_loss model X y) = true) /\
  (forall i yi,
     nth_error y i = Some yi -> nth_error (class1_probabilities model X) i = Some yi ->
     is_nan (logistic_loss model X y) = true /\
     (0 <=? logistic_loss model X y) = false /\
     (logistic_loss model X y =? 0) = false).
Proof.
  intros Hlen Hy.
  assert (Hlp : length y = length (class1_probabilities model X)).
  { unfold class1_probabilities. now rewrite length_map. }
  unfold logistic_loss. cbv zeta. rewrite log_likelihoods_map2. split.
  - intros HX Hb Hp. apply mean_nonpos.
    + intros E. apply (f_equal (@length float)) in E.
      rewrite map2_length in E by assumption. rewrite Hlen in E.
      destruct X; [congruence|discriminate].
    + rewrite map2_length by assumption. now rewrite Hlen.
    + apply map2_Forall; auto using log_likelihood_nonpos.
  - intros i yi Hyi Hpi.
    assert (Hnan : is_nan (- Np.mean (Np.map2 log_likelihood y (class1_probabilities model X)))
                   = true).
    { apply mean_nan. eapply map2_Exists; [exact Hyi | exact Hpi |].
      apply log_likelihood_exact.
      rewrite Forall_forall in Hy. apply Hy. eapply nth_error_In, Hyi. }
    split; [assumption|]. apply is_nan_spec in Hnan.
    rewrite leb_spec, eqb_spec, Hnan. split; reflexivity.
Qed.

End LossFacts.

(** ** The example logarithm obeys the logarithm's laws *)

Section DemoLog.
Import F64Facts SF SFFacts.
Local Open Scope float_scope.

Lemma ltb_zero_not_eqb x : (0 <? x) = true -> (x =? 0) = false.
Proof.
  rewrite ltb_spec, eqb_spec. change (Prim2SF 0) with (S754_zero false).
  destruct (Prim2SF x) as [s|s| |s m e]; cbn; try discriminate; destruct s; cbn;
    try discriminate; reflexivity.
Qed.

Lemma leb_not_eqb_ltb x y : (x <=? y) = true -> (x =? y) = false -> (x <? y) = true.
Proof.
  rewrite leb_spec, eqb_spec, ltb_spec. unfold SFleb, SFeqb, SFltb.
  destruct (SFcompare (Prim2SF x) (Prim2SF y)) as [[| |]|]; congruence.
Qed.

Lemma demo_libm_laws : LibmLaws Demo.libm.
Proof.
  constructor; [reflexivity | reflexivity |].
  intros x H0 H1. cbn [np_log Demo.libm]. unfold Demo.step_log.
  rewrite (ltb_zero_not_eqb x H0).
  destruct (x =? 1) eqn:E1; [split; reflexivity|].
  rewrite H0, (leb_not_eqb_ltb x 1 H1 E1). split; reflexivity.
Qed.

End DemoLog.

Ltac all_labels :=
  repeat first
    [ apply Forall_nil
    | apply Forall_cons; [first [left; reflexivity | right; reflexivity]|] ].

(** Four points, the additions made from the first entry on and, below,
    by pairs. *)
Lemma mean_negative_log_likelihood_witness :
  F64.same_value
    (logistic_loss (K := Demo.sklearn 0 1 1 fst) (M := Demo.libm)
       tt [(0.25, 0); (0.5, 1); (0.75, 2); (0.5, 3)]%float [0; 1; 1; 0]%float)
    (mean_negative_log_likelihood (K := Demo.sklearn 0 1 1 fst) (M := Demo.libm)
       (accumulated 4)
       tt [(0.25, 0); (0.5, 1); (0.75, 2); (0.5, 3)]%float [0; 1; 1; 0]%float) = true /\
  F64.same_value
    (logistic_loss_in (K := Demo.sklearn 0 1 1 fst) (M := Demo.libm)
       (Np.Plus (Np.Plus (Np.Entry 0) (Np.Entry 2)) (Np.Plus (Np.Entry 1) (Np.Entry 3)))
       tt [(0.25, 0); (0.5, 1); (0.75, 2); (0.5, 3)]%float [0; 1; 1; 0]%float)
    (mean_negative_log_likelihood (K := Demo.sklearn 0 1 1 fst) (M := Demo.libm)
       (Np.Plus (Np.Plus (Np.Entry 0) (Np.Entry 2)) (Np.Plus (Np.Entry 1) (Np.Entry 3)))
       tt [(0.25, 0); (0.5, 1); (0.75, 2); (0.5, 3)]%float [0; 1; 1; 0]%float) = true.
Proof.
  destruct (logistic_loss_is_mean_negative_log_likelihood
              (K := Demo.sklearn 0 1 1 fst) (M := Demo.libm)
              tt [(0.25, 0); (0.5, 1); (0.75, 2); (0.5, 3)]%float [0; 1; 1; 0]%float
              eq_refl) as (H1 & _ & H2).
  split; [exact H1|]. apply H2. reflexivity.
Defined.

Lemma logistic_loss_witness :
  ((0 <=? logistic_loss (K := Demo.sklearn 0 1 1 (fun _ => 0.75)) (M := Demo.libm)
            tt [(0, 0); (1, 1)] [0; 1]) = true)%float /\
  (is_nan (logistic_loss (K := Demo.sklearn 0 1 1 (fun _ => 1)) (M := Demo.libm)
             tt [(3, 3)] [1]) = true /\
   (0 <=? logistic_loss (K := Demo.sklearn 0 1 1 (fun _ => 1)) (M := Demo.libm)
            tt [(3, 3)] [1]) = false /\
   (logistic_loss (K := Demo.sklearn 0 1 1 (fun _ => 1)) (M := Demo.libm)
            tt [(3, 3)] [1] =? 0) = false)%float.
Proof.
  split.
  - apply (proj1 (logistic_loss_nonnegative_inside
             (K := Demo.sklearn 0 1 1 (fun _ => 0.75%float)) (L := demo_libm_laws)
             tt [(0, 0); (1, 1)]%float [0; 1]%float eq_refl ltac:(all_labels))).
    + discriminate.
    + cbn. lia.
    + repeat constructor.
  - apply (proj2 (logistic_loss_nonnegative_inside
             (K := Demo.sklearn 0 1 1 (fun _ => 1%float)) (L := demo_libm_laws)
             tt [(3, 3)]%float [1]%float eq_refl ltac:(all_labels))
             0%nat 1%float); reflexivity.
Defined.

(** A model that is certain and right: it predicts probability 1 for a
    point of class 1.  The loss is not-a-number, which is neither at least
    zero nor zero. *)
Lemma logistic_loss_counterexample :
  (snd (predict_proba (Sklearn := Demo.sklearn 0 1 1 (fun _ => 1)) tt (3, 3)) = 1 /\
   logistic_loss (K := Demo.sklearn 0 1 1 (fun _ => 1)) (M := Demo.libm)
     tt [(3, 3)] [1] = nan /\
   (0 <=? logistic_loss (K := Demo.sklearn 0 1 1 (fun _ => 1)) (M := Demo.libm)
            tt [(3, 3)] [1]) = false /\
   (logistic_loss (K := Demo.sklearn 0 1 1 (fun _ => 1)) (M := Demo.libm)
      tt [(3, 3)] [1] =? 0) = false)%float.
Proof. repeat split; vm_compute; reflexivity. Qed.

(* ================================================================== *)
(** * Part III: further properties of the sweep *)
(* ================================================================== *)

(** ** How the steps compose *)

Section SweepComposition.
Context {R : NumpyRandom} {K : Sklearn} {M : Libm} {P : Matplotlib}.
Local Open Scope float_scope.

Lemma run_experiments_crashed ds : forall e s1,
  fold_left
    (fun acc distance =>
       and_then acc (fun sg : series * rng_state => experiment (fst sg) (snd sg) distance))
    ds (Crashed e s1) = Crashed e s1.
Proof. induction ds as [|d ds IH]; intros e s1; cbn; [reflexivity | apply IH]. Qed.

Lemma run_experiments_cons d ds s g :
  run_experiments (d :: ds) s g =
  and_then (experiment s g d) (fun sg => run_experiments ds (fst sg) (snd sg)).
Proof.
  unfold run_experiments. cbn [fold_left and_then fst snd].
  destruct (experiment s g d) as [[s1 g1]|e s1]; cbn [and_then fst snd]; [reflexivity|].
  apply run_experiments_crashed.
Qed.

(** A step reads the generator only after reseeding it. *)
Lemma experiment_reseeds s g g0 d : experiment s g d = experiment s g0 d.
Proof. unfold experiment. now rewrite (generate_unfold g), (generate_unfold g0). Qed.

(** X2. A sweep of at least one step does not depend on the state the
    process's generator is in when it starts: the series, the way it ends and
    the state it leaves are the same. *)
Theorem sweep_reproducible (start stop : float) (count : nat) (g g0 : rng_state) :
  (1 <= count)%nat ->
  do_experiments start stop count g = do_experiments start stop count g0.
Proof.
  intros Hc. unfold do_experiments.
  pose proof (linspace_length start stop count) as Hl.
  destruct (Np.linspace start stop count) as [|d ds]; [cbn in Hl; lia|].
  rewrite !run_experiments_cons. now rewrite (experiment_reseeds empty_series g g0).
Qed.

Lemma map2_app f a : forall b a' b',
  length a = length b ->
  Np.map2 f (a ++ a') (b ++ b') = Np.map2 f a b ++ Np.map2 f a' b'.
Proof.
  unfold Np.map2. induction a as [|x a IH]; intros [|z b] a' b' H; cbn in *;
    try discriminate; [reflexivity|].
  f_equal. apply IH. lia.
Qed.

Lemma after_fit_coherent s X y : coherent s -> coherent (after_fit s X y).
Proof.
  unfold coherent, after_fit, fit_logistic_regression.
  destruct (coef_0 (fit X y)) as [beta1 beta2].
  cbn [record_parameters beta0_list beta1_list beta2_list slope_list intercept_list
       loss_list].
  intros (H1 & H2 & H3 & Hs & Hi). rewrite !length_app, H1, H2, H3.
  repeat split; try reflexivity.
  - rewrite map2_app by congruence. now rewrite Hs.
  - rewrite map2_app by congruence. now rewrite Hi.
Qed.

Lemma experiment_coherent s g d :
  coherent s -> coherent (series_reached (experiment s g d)).
Proof.
  intros Hs.
  destruct (generate_ellipsoid_clusters g d default_n_samples default_cluster_std)
    as [[X y] g'] eqn:Hg.
  rewrite (experiment_unfold s g d X y g' Hg).
  pose proof (after_fit_coherent s X y Hs) as H.
  destruct (confidence_surface (fit X y) X) as [grid|e1]; cbn; [|exact H].
  destruct (min_distance _ _) as [m|e2]; cbn; exact H.
Qed.

(** X4. However a sweep ends, the series it leaves are coherent if those
    it started from were: the six parameter series have one length, each
    recorded slope is [-beta1 / beta2] and each recorded intercept
    [-beta0 / beta2] of the coefficients at the same position. *)
Theorem sweep_keeps_series_coherent (ds : list float) (s : series) (g : rng_state) :
  coherent s -> coherent (series_reached (run_experiments ds s g)).
Proof.
  revert s g. induction ds as [|d ds IH]; intros s g Hs; [exact Hs|].
  rewrite run_experiments_cons.
  pose proof (experiment_coherent s g d Hs) as H.
  destruct (experiment s g d) as [[s1 g1]|e s1]; cbn [and_then fst snd series_reached] in *.
  - now apply IH.
  - exact H.
Qed.

End SweepComposition.

Lemma sweep_reproducible_witness :
  do_experiments (R := Lcg.rng) (K := Demo.sklearn 0.5 1 1 (fun _ => 0.75%float))
    (M := Demo.libm) (P := Demo.matplotlib Demo.red Demo.blue) 0.25 2 8 5%Z =
  do_experiments (R := Lcg.rng) (K := Demo.sklearn 0.5 1 1 (fun _ => 0.75%float))
    (M := Demo.libm) (P := Demo.matplotlib Demo.red Demo.blue) 0.25 2 8 77%Z.
Proof.
  apply (sweep_reproducible
           (R := Lcg.rng) (K := Demo.sklearn 0.5 1 1 (fun _ => 0.75%float))
           (M := Demo.libm) (P := Demo.matplotlib Demo.red Demo.blue)
           0.25%float 2%float 8 5%Z 77%Z).
  lia.
Defined.

Lemma coherent_empty : coherent empty_series.
Proof. unfold coherent. cbn. repeat split; reflexivity. Qed.

Lemma sweep_keeps_series_coherent_witness :
  coherent (series_reached
    (run_experiments (R := Lcg.rng) (K := Demo.sklearn 0.5 1 1 (fun _ => 0.75%float))
       (M := Demo.libm) (P := Demo.matplotlib Demo.red Demo.blue)
       [0.25; 0.5]%float empty_series 0%Z)).
Proof.
  exact (sweep_keeps_series_coherent
           (R := Lcg.rng) (K := Demo.sklearn 0.5 1 1 (fun _ => 0.75%float))
           (M := Demo.libm) (P := Demo.matplotlib Demo.red Demo.blue)
           [0.25; 0.5]%float empty_series 0%Z coherent_empty).
Defined.

(** ** The figure *)

Section FigureFacts.
Import F64Facts SF SFFacts.
Local Open Scope float_scope.

Lemma n_rows_bounds n : (n <= n_rows n * n_cols /\ n_rows n * n_cols < n + n_cols)%nat.
Proof.
  unfold n_rows, n_cols.
  pose proof (Nat.div_mod_eq (n + 2 - 1) 2) as H.
  pose proof (Nat.mod_upper_bound (n + 2 - 1) 2 ltac:(lia)) as Hr.
  lia.
Qed.

Lemma in_enumerate_from_1 {A : Type} (l : list A) i x :
  In (i, x) (enumerate_from_1 l) -> (1 <= i <= length l)%nat.
Proof.
  unfold enumerate_from_1. intros H. apply in_combine_l in H.
  apply in_seq in H. lia.
Qed.

(** X5. The figure has room for every panel and no row to spare: with
    two columns and [(n + 1) // 2] rows, each of the [n] calls of
    [plt.subplot] gets an index between 1 and the number of panels, so none is
    refused, and fewer than two panels stay unused. *)
Theorem panels_fit_the_figure (shift_distances : list float) :
  let n := length shift_distances in
  length (panels shift_distances) = n /\
  Forall (fun r => r = Ok tt) (panels shift_distances) /\
  (n <= n_rows n * n_cols)%nat /\
  (n_rows n * n_cols < n + n_cols)%nat.
Proof.
  cbv zeta. destruct (n_rows_bounds (length shift_distances)) as [Hlo Hhi].
  split; [|split; [|split; assumption]].
  - unfold panels, enumerate_from_1.
    rewrite length_map, length_combine, length_seq. lia.
  - unfold panels. apply Forall_forall. intros r Hr.
    apply in_map_iff in Hr. destruct Hr as ([i x] & <- & Hin).
    apply in_enumerate_from_1 in Hin. cbn [fst]. unfold subplot.
    destruct (Nat.leb_spec 1 i); [|lia].
    destruct (Nat.leb_spec i (n_rows (length shift_distances) * n_cols)); [reflexivity|lia].
Qed.

Lemma mul_not_finite p e a x : ~ finite a -> ~ finite (SFmul p e a x).
Proof. destruct a, x; cbn; tauto. Qed.

Lemma add_not_finite_l p e a b : ~ finite a -> ~ finite (SFadd p e a b).
Proof. destruct a as [| [|] | |], b as [| [|] | |]; cbn; tauto. Qed.

(** X6. When the fitted [beta2] is zero, no point of the decision
    boundary that is drawn has a finite ordinate: each
    [slope * x + intercept] is an infinity or not-a-number. *)
Theorem vertical_boundary_has_no_finite_point (beta0 beta1 beta2 : float) (xs : list float) :
  (beta2 =? 0) = true ->
  Forall (fun v => is_finite v = false)
    (boundary_ordinates (slope_of beta1 beta2) (intercept_of beta0 beta2) xs).
Proof.
  intros Hz. pose proof (div_by_zero_not_finite (- beta1) beta2 Hz) as Hs.
  fold (slope_of beta1 beta2) in Hs.
  assert (Hs' : ~ finite (Prim2SF (slope_of beta1 beta2))).
  { intros H. apply is_finite_spec in H. congruence. }
  unfold boundary_ordinates. apply Forall_forall. intros v Hv.
  apply in_map_iff in Hv. destruct Hv as (x & <- & _).
  apply not_true_is_false. rewrite is_finite_spec, add_spec, mul_spec.
  now apply add_not_finite_l, mul_not_finite.
Qed.

End FigureFacts.

Lemma vertical_boundary_witness :
  Forall (fun v => is_finite v = false)
    (boundary_ordinates (slope_of 1 0) (intercept_of 0.5 0) [-1; 0; 2.5])%float.
Proof.
  apply (vertical_boundary_has_no_finite_point 0.5 1 0 [-1; 0; 2.5])%float. reflexivity.
Defined.

(** ** The confidence surface *)

Section GridFacts.
Context {K : Sklearn}.
Local Open Scope float_scope.

(** The surface once the four bounds are known. *)
Lemma confidence_surface_unfold model X x_lo x_hi y_lo y_hi :
  Np.min (map fst X) = Ok x_lo -> Np.max (map fst X) = Ok x_hi ->
  Np.min (map snd X) = Ok y_lo -> Np.max (map snd X) = Ok y_hi ->
  let xs := Np.linspace (x_lo - 1) (x_hi + 1) grid_size in
  let ys := Np.linspace (y_lo - 1) (y_hi + 1) grid_size in
  confidence_surface model X =
  Ok (map (fun _ => xs) ys,
      map (fun y => map (fun _ => y) xs) ys,
      map (fun row => map (fun q => snd (predict_proba model q)) row)
        (map (fun rows => combine (fst rows) (snd rows))
           (combine (map (fun _ => xs) ys) (map (fun y => map (fun _ => y) xs) ys)))).
Proof.
  intros H1 H2 H3 H4. unfold confidence_surface. rewrite H1, H2, H3, H4. reflexivity.
Qed.

(** X8. The surface is sampled where the grid says: the abscissas are the
    200 values of [linspace] from the least first coordinate minus 1 to the
    greatest plus 1 (the last being exactly that bound), the ordinates
    likewise, and at row [i] and column [j] the grid [xx] holds the abscissa
    [j], [yy] the ordinate [i], and [Z] the probability of class 1 that the
    model predicts at that point. *)
Theorem confidence_surface_entries
  (model : estimator) (X : list point) (xx yy Z : list (list float)) :
  confidence_surface model X = Ok (xx, yy, Z) ->
  exists x_lo x_hi y_lo y_hi,
    Np.min (map fst X) = Ok x_lo /\ Np.max (map fst X) = Ok x_hi /\
    Np.min (map snd X) = Ok y_lo /\ Np.max (map snd X) = Ok y_hi /\
    let xs := Np.linspace (x_lo - 1) (x_hi + 1) grid_size in
    let ys := Np.linspace (y_lo - 1) (y_hi + 1) grid_size in
    nth_error xs (grid_size - 1) = Some (x_hi + 1) /\
    nth_error ys (grid_size - 1) = Some (y_hi + 1) /\
    forall i j x y,
      nth_error xs j = Some x -> nth_error ys i = Some y ->
      grid_at xx i j = Some x /\ grid_at yy i j = Some y /\
      grid_at Z i j = Some (snd (predict_proba model (x, y))).
Proof.
  intros H.
  destruct (Np.min (map fst X)) as [x_lo|e] eqn:H1;
    [|unfold confidence_surface in H; rewrite H1 in H; discriminate].
  destruct (Np.max (map fst X)) as [x_hi|e] eqn:H2;
    [|unfold confidence_surface in H; rewrite H1, H2 in H; discriminate].
  destruct (Np.min (map snd X)) as [y_lo|e] eqn:H3;
    [|unfold confidence_surface in H; rewrite H1, H2, H3 in H; discriminate].
  destruct (Np.max (map snd X)) as [y_hi|e] eqn:H4;
    [|unfold confidence_surface in H; rewrite H1, H2, H3, H4 in H; discriminate].
  rewrite (confidence_surface_unfold model X x_lo x_hi y_lo y_hi H1 H2 H3 H4) in H.
  exists x_lo, x_hi, y_lo, y_hi. repeat (split; [reflexivity|]).
  cbv zeta in *.
  set (xs := Np.linspace (x_lo - 1) (x_hi + 1) grid_size) in *.
  set (ys := Np.linspace (y_lo - 1) (y_hi + 1) grid_size) in *.
  split; [apply linspace_last; unfold grid_size; lia|].
  split; [apply linspace_last; unfold grid_size; lia|].
  injection H as <- <- <-. intros i j x y Hx Hy. unfold grid_at.
  assert (Hxx : nth_error (map (fun _ : float => xs) ys) i = Some xs).
  { rewrite nth_error_map, Hy. reflexivity. }
  assert (Hyy : nth_error (map (fun y0 => map (fun _ : float => y0) xs) ys) i
                = Some (map (fun _ => y) xs)).
  { rewrite nth_error_map, Hy. reflexivity. }
  assert (Hyj : nth_error (map (fun _ : float => y) xs) j = Some y).
  { rewrite nth_error_map, Hx. reflexivity. }
  rewrite Hxx, Hyy. split; [exact Hx|]. split; [exact Hyj|].
  rewrite !nth_error_map, (nth_error_combine _ _ i _ _ Hxx Hyy). cbn [option_map fst snd].
  rewrite nth_error_map. unfold point.
  rewrite (nth_error_combine _ _ j _ _ Hx Hyj). reflexivity.
Qed.

End GridFacts.

(** ** The margin, further *)

Section MarginSymmetry.
Import F64Facts SF SFFacts.
Local Open Scope float_scope.

Lemma sub_swap p e x y : agree (SFsub p e x y) (SFopp (SFsub p e y x)).
Proof.
  destruct x as [s|s| |s m ex]; destruct y as [s'|s'| |s' m' ey]; cbn;
    try (left; reflexivity);
    try (destruct s, s'; cbn; solve [left; reflexivity | right; eauto]);
    try (left; now rewrite negb_involutive).
  rewrite Z.min_comm.
  replace (cond_Zopp s (Z.pos (fst (shl_align m ex (Z.min ey ex)))) -
           cond_Zopp s' (Z.pos (fst (shl_align m' ey (Z.min ey ex)))))%Z
    with (- (cond_Zopp s' (Z.pos (fst (shl_align m' ey (Z.min ey ex)))) -
             cond_Zopp s (Z.pos (fst (shl_align m ex (Z.min ey ex))))))%Z by lia.
  apply binary_normalize_opp.
Qed.

Lemma mul_self_opp p e b : SFmul p e (SFopp b) (SFopp b) = SFmul p e b b.
Proof. destruct b as [s|s| |s m ex]; cbn; try reflexivity; destruct s; reflexivity. Qed.

Lemma mul_self_agree p e a b : agree a (SFopp b) -> SFmul p e a a = SFmul p e b b.
Proof.
  intros [-> | (s & s' & -> & E)]; [apply mul_self_opp|].
  destruct b as [t|t| |t m ex]; cbn in E; try discriminate.
  cbn. now rewrite !xorb_nilpotent.
Qed.

(** The distance does not depend on the order of the two points. *)
Lemma euclidean_sym u v : euclidean u v = euclidean v u.
Proof.
  apply Prim2SF_inj. unfold euclidean. cbv zeta.
  rewrite !sqrt_spec, !add_spec, !mul_spec, !sub_spec. unfold SF64mul, SF64sub.
  rewrite (mul_self_agree prec emax _ _ (sub_swap prec emax (Prim2SF (fst u)) (Prim2SF (fst v)))).
  rewrite (mul_self_agree prec emax _ _ (sub_swap prec emax (Prim2SF (snd u)) (Prim2SF (snd v)))).
  reflexivity.
Qed.

Lemma sub_self p e x : finite x -> SFsub p e x x = S754_zero false.
Proof.
  destruct x as [s|s| |s m ex]; cbn; try contradiction; intros _.
  - destruct s; reflexivity.
  - now rewrite Z.sub_diag.
Qed.

(** A finite point is at distance [+0] from itself. *)
Lemma euclidean_self u : F64.finite_point u = true -> euclidean u u = 0.
Proof.
  unfold F64.finite_point. rewrite andb_true_iff, !is_finite_spec. intros [H0 H1].
  apply Prim2SF_inj. unfold euclidean. cbv zeta.
  rewrite sqrt_spec, add_spec, !mul_spec, !sub_spec. unfold SF64mul, SF64sub.
  rewrite !sub_self by assumption. reflexivity.
Qed.

Lemma SFleb_antisym x y :
  signed false x -> signed false y -> SFleb x y = true -> SFleb y x = true -> x = y.
Proof.
  unfold SFleb, SFcompare.
  destruct x as [s1|s1| |s1 m1 e1]; destruct y as [s2|s2| |s2 m2 e2]; cbn;
    intros Hx Hy; try contradiction; subst; cbn; try reflexivity; try discriminate.
  intros H1 H2. order_cases.
Qed.

Lemma leb_antisym a b :
  signed false (Prim2SF a) -> signed false (Prim2SF b) ->
  (a <=? b) = true -> (b <=? a) = true -> a = b.
Proof.
  rewrite !leb_spec. intros Ha Hb H1 H2. apply Prim2SF_inj.
  now apply SFleb_antisym.
Qed.

Lemma cdist_entry_signed v1 v0 x :
  forallb F64.finite_point v1 = true -> forallb F64.finite_point v0 = true ->
  In x (concat (cdist v1 v0)) -> signed false (Prim2SF x).
Proof.
  rewrite !forallb_forall. intros F1 F0 Hx. apply cdist_entries in Hx.
  destruct Hx as (u & v & Hu & Hv & ->). apply euclidean_signed; auto.
Qed.

Lemma cdist_entries_swap v1 v0 x :
  In x (concat (cdist v1 v0)) -> In x (concat (cdist v0 v1)).
Proof.
  rewrite !cdist_entries. intros (u & v & Hu & Hv & ->).
  exists v, u. repeat split; try assumption. apply euclidean_sym.
Qed.

(** X9. The margin width does not depend on which class is taken first:
    with the two polylines exchanged, lines 83-86 compute the same float. *)
Theorem margin_width_symmetric (c1 c0 : contour_set) (v1 v0 : path) :
  first_polyline c1 = Ok v1 -> first_polyline c0 = Ok v0 ->
  v1 <> [] -> v0 <> [] ->
  forallb F64.finite_point v1 = true -> forallb F64.finite_point v0 = true ->
  min_distance c1 c0 = min_distance c0 c1.
Proof.
  intros H1 H0 N1 N0 F1 F0. unfold min_distance. rewrite H1, H0. cbn [bind].
  destruct (least_distance v1 v0 N1 N0 F1 F0) as (m & Hm & [Hin Hle] & _).
  destruct (least_distance v0 v1 N0 N1 F0 F1) as (m' & Hm' & [Hin' Hle'] & _).
  rewrite Hm, Hm'. f_equal. apply leb_antisym.
  - eapply cdist_entry_signed; [exact F1 | exact F0 | exact Hin].
  - eapply cdist_entry_signed; [exact F0 | exact F1 | exact Hin'].
  - apply Hle. now apply cdist_entries_swap.
  - apply Hle'. now apply cdist_entries_swap.
Qed.

Lemma leb_zero_signed_is_zero m :
  signed false (Prim2SF m) -> (m <=? 0) = true -> m = 0.
Proof.
  intros Hs Hle. apply leb_antisym; try assumption.
  - reflexivity.
  - apply zero_leb. now apply signed_false_nonneg.
Qed.

(** X10. Two polylines that share a vertex have margin width exactly
    zero. *)
Theorem touching_polylines_have_zero_margin (c1 c0 : contour_set) (v1 v0 : path) (u : point) :
  first_polyline c1 = Ok v1 -> first_polyline c0 = Ok v0 ->
  In u v1 -> In u v0 ->
  forallb F64.finite_point v1 = true -> forallb F64.finite_point v0 = true ->
  min_distance c1 c0 = Ok 0.
Proof.
  intros H1 H0 Hu1 Hu0 F1 F0. unfold min_distance. rewrite H1, H0. cbn [bind].
  assert (N1 : v1 <> []) by (intros ->; inversion Hu1).
  assert (N0 : v0 <> []) by (intros ->; inversion Hu0).
  destruct (least_distance v1 v0 N1 N0 F1 F0) as (m & Hm & [Hin Hle] & _).
  rewrite Hm. f_equal. apply leb_zero_signed_is_zero.
  - eapply cdist_entry_signed; [exact F1 | exact F0 | exact Hin].
  - rewrite <- (euclidean_self u).
    + apply Hle. apply cdist_entries. eauto.
    + rewrite forallb_forall in F1. now apply F1.
Qed.

(** X11. A first polyline without a vertex leaves the distance matrix
    empty, and [np.min] raises [ValueError]. *)
Theorem vertexless_polyline_raises (c1 c0 : contour_set) (v1 v0 : path) :
  first_polyline c1 = Ok v1 -> first_polyline c0 = Ok v0 ->
  v1 = [] \/ v0 = [] ->
  min_distance c1 c0 = Raise ValueError.
Proof.
  intros H1 H0 Hv. unfold min_distance. rewrite H1, H0. cbn [bind].
  assert (E : concat (cdist v1 v0) = []).
  { destruct Hv as [-> | ->]; [reflexivity|].
    unfold cdist. clear H1. induction v1 as [|u v1 IH]; cbn; [reflexivity | exact IH]. }
  rewrite E. reflexivity.
Qed.

End MarginSymmetry.

Lemma margin_width_symmetric_witness :
  min_distance Demo.red Demo.blue = min_distance Demo.blue Demo.red.
Proof.
  apply (margin_width_symmetric Demo.red Demo.blue
           [(2, 2); (3, 2)]%float [(0, 0); (0, 1)]%float);
    solve [reflexivity | discriminate].
Defined.

Lemma touching_polylines_witness :
  min_distance [[[(2, 2); (3, 2)]]]%float [[[(0, 0); (3, 2)]]]%float = Ok 0%float.
Proof.
  apply (touching_polylines_have_zero_margin
           [[[(2, 2); (3, 2)]]]%float [[[(0, 0); (3, 2)]]]%float
           [(2, 2); (3, 2)]%float [(0, 0); (3, 2)]%float (3, 2)%float);
    try reflexivity; cbn; auto.
Defined.

Lemma vertexless_polyline_witness :
  min_distance [[[]]] Demo.blue = Raise ValueError.
Proof.
  apply (vertexless_polyline_raises [[[]]] Demo.blue [] [(0, 0); (0, 1)]%float);
    solve [reflexivity | left; reflexivity].
Defined.

Lemma confidence_surface_entries_witness :
  exists x_lo x_hi y_lo y_hi,
    Np.min (map fst [(0, 0); (1, 2)]%float) = Ok x_lo /\
    Np.max (map fst [(0, 0); (1, 2)]%float) = Ok x_hi /\
    Np.min (map snd [(0, 0); (1, 2)]%float) = Ok y_lo /\
    Np.max (map snd [(0, 0); (1, 2)]%float) = Ok y_hi /\
    let xs := Np.linspace (x_lo - 1) (x_hi + 1) grid_size in
    let ys := Np.linspace (y_lo - 1) (y_hi + 1) grid_size in
    nth_error xs (grid_size - 1) = Some (x_hi + 1)%float /\
    nth_error ys (grid_size - 1) = Some (y_hi + 1)%float /\
    forall i j x y,
      nth_error xs j = Some x -> nth_error ys i = Some y ->
      grid_at (fst (fst (surface_or_empty (Demo.sklearn 0 1 1 fst) tt
                           [(0, 0); (1, 2)]%float))) i j = Some x /\
      grid_at (snd (fst (surface_or_empty (Demo.sklearn 0 1 1 fst) tt
                           [(0, 0); (1, 2)]%float))) i j = Some y /\
      grid_at (snd (surface_or_empty (Demo.sklearn 0 1 1 fst) tt
                      [(0, 0); (1, 2)]%float)) i j
      = Some (snd (predict_proba (Sklearn := Demo.sklearn 0 1 1 fst) tt (x, y))).
Proof.
  apply (confidence_surface_entries (K := Demo.sklearn 0 1 1 fst) tt [(0, 0); (1, 2)]%float).
  vm_compute. reflexivity.
Defined.

(** ** The loss, further *)

Section LossDivergence.
Context {K : Sklearn} {M : Libm} {L : LibmLaws M}.
Import F64Facts SF SFFacts.
Local Open Scope float_scope.

Lemma add_neg_inf_l p e b :
  nonpos b -> SFadd p e (S754_infinity true) b = S754_infinity true.
Proof. destruct b as [s|s| |s m ex]; cbn; intros H; subst; try contradiction; reflexivity. Qed.

Lemma add_neg_inf_r p e a :
  nonpos a -> SFadd p e a (S754_infinity true) = S754_infinity true.
Proof. destruct a as [s|s| |s m ex]; cbn; intros H; subst; try contradiction; reflexivity. Qed.

Lemma fold_add_neg_inf xs : forall acc,
  nonpos (Prim2SF acc) -> Forall (fun x => nonpos (Prim2SF x)) xs ->
  Prim2SF acc = S754_infinity true \/ Exists (fun x => Prim2SF x = S754_infinity true) xs ->
  Prim2SF (fold_left PrimFloat.add xs acc) = S754_infinity true.
Proof.
  induction xs as [|b xs IH]; intros acc Ha Hxs H; cbn.
  - destruct H as [H|H]; [assumption | inversion H].
  - inversion Hxs as [|? ? Hb Hxs']; subst.
    apply IH; [rewrite add_spec; now apply add_nonpos | assumption |].
    destruct H as [H|H].
    + left. rewrite add_spec. unfold SF64add. rewrite H. now apply add_neg_inf_l.
    + inversion H as [? ? Hb'|? ? Hx]; subst; [|now right].
      left. rewrite add_spec. unfold SF64add. rewrite Hb'. now apply add_neg_inf_r.
Qed.

(** A prediction that is certain and wrong has log-likelihood [-inf]. *)
Lemma log_likelihood_wrong yi pi :
  certain_and_wrong yi pi -> log_likelihood yi pi = neg_infinity.
Proof.
  unfold log_likelihood. intros [[-> ->] | [-> ->]].
  - change (1 - 0) with 1. change (1 - 1) with 0. rewrite np_log_zero, np_log_one. reflexivity.
  - change (1 - 0) with 1. change (1 - 1) with 0. rewrite np_log_zero, np_log_one. reflexivity.
Qed.

(** X13. On a dataset of [N >= 1] points with labels 0 and 1 where every
    predicted probability is either strictly inside [(0, 1)] or certain and
    wrong (0 for a point of class 1, 1 for a point of class 0), and at least
    one is certain and wrong, the loss is exactly [+inf]. *)
Theorem confident_wrong_prediction_gives_infinite_loss
  (model : estimator) (X : list point) (y : list float) :
  (Z.of_nat (length X) < 2 ^ 53)%Z ->
  Forall2 (fun yi pi =>
             (yi = 0 \/ yi = 1) /\
             (interior_probability pi = true \/ certain_and_wrong yi pi))
    y (class1_probabilities model X) ->
  (exists i yi pi,
     nth_error y i = Some yi /\ nth_error (class1_probabilities model X) i = Some pi /\
     certain_and_wrong yi pi) ->
  logistic_loss model X y = infinity.
Proof.
  intros Hb Hall (i & yi & pi & Hyi & Hpi & Hw).
  unfold logistic_loss. cbv zeta. rewrite log_likelihoods_map2.
  set (probs := class1_probabilities model X) in *.
  assert (Hlen : length y = length probs) by (eapply Forall2_length, Hall).
  assert (HlenX : length probs = length X) by (unfold probs, class1_probabilities; apply length_map).
  set (l := Np.map2 log_likelihood y probs).
  assert (Hl : length l = length X) by (unfold l; rewrite map2_length; congruence).
  assert (Hnp : Forall (fun x => nonpos (Prim2SF x)) l).
  { unfold l, Np.map2. clear -Hall L. induction Hall as [|y0 p0 y' p' [Hy Hp] _ IH];
      cbn [map combine fst snd]; constructor; [|exact IH].
    destruct Hp as [Hp|Hp].
    - now apply log_likelihood_nonpos.
    - rewrite (log_likelihood_wrong _ _ Hp). reflexivity. }
  assert (Hex : Exists (fun x => Prim2SF x = S754_infinity true) l).
  { unfold l. eapply map2_Exists; [exact Hyi | exact Hpi |].
    now rewrite (log_likelihood_wrong _ _ Hw). }
  assert (Hsum : Prim2SF (Np.sum l) = S754_infinity true).
  { destruct l as [|x xs]; [inversion Hex|]. cbn.
    inversion Hnp; subst. apply fold_add_neg_inf; try assumption.
    inversion Hex; subst; auto. }
  destruct (of_nat_positive (length l)) as (m & e & Hn).
  { destruct l; [inversion Hex | cbn; lia]. }
  { now rewrite Hl. }
  fold (F64.of_nat (length l)) in Hn.
  apply Prim2SF_inj. unfold Np.mean. rewrite opp_spec, div_spec. unfold SF64div.
  rewrite Hsum, Hn. reflexivity.
Qed.

End LossDivergence.

Lemma confident_wrong_witness :
  logistic_loss (K := Demo.sklearn 0 1 1 fst) (M := Demo.libm)
    tt [(0.75, 0); (0, 5)]%float [0; 1]%float = infinity.
Proof.
  apply (confident_wrong_prediction_gives_infinite_loss
           (K := Demo.sklearn 0 1 1 fst) (L := demo_libm_laws)
           tt [(0.75, 0); (0, 5)]%float [0; 1]%float).
  - cbn. lia.
  - unfold class1_probabilities. cbn [map].
    apply Forall2_cons; [split; [left; reflexivity | left; reflexivity]|].
    apply Forall2_cons; [split; [right; reflexivity | right; left; split; reflexivity]|].
    apply Forall2_nil.
  - exists 1%nat, 1%float, 0%float.
    split; [reflexivity|]. split; [reflexivity|]. left. split; reflexivity.
Defined.

(** ** The levels that only shade *)

Section Shading.
Context {R : NumpyRandom} {K : Sklearn} {M : Libm}.
Local Open Scope float_scope.

(** X14. The contours of the levels 0.8 and 0.9 are drawn and never read:
    two contouring routines that return the same polylines for the two bands
    of level 0.7 give a step the same outcome, whatever they return for the
    other bands. *)
Theorem step_reads_only_the_first_level (P P' : Matplotlib)
  (s : series) (g : rng_state) (d : float) :
  (forall xx yy Z,
     contourf (Matplotlib := P) xx yy Z (0.7, 1.0) =
     contourf (Matplotlib := P') xx yy Z (0.7, 1.0) /\
     contourf (Matplotlib := P) xx yy Z (0.0, 1 - 0.7) =
     contourf (Matplotlib := P') xx yy Z (0.0, 1 - 0.7)) ->
  experiment (P := P) s g d = experiment (P := P') s g d.
Proof.
  intros H.
  destruct (generate_ellipsoid_clusters g d default_n_samples default_cluster_std)
    as [[X y] g'] eqn:Hg.
  rewrite (experiment_unfold (P := P) s g d X y g' Hg).
  rewrite (experiment_unfold (P := P') s g d X y g' Hg).
  destruct (confidence_surface (fit X y) X) as [[[xx yy] Z]|e]; [|reflexivity].
  cbn [or_crash and_then fst snd]. unfold class_1_contour, class_0_contour.
  destruct (H xx yy Z) as [-> ->]. reflexivity.
Qed.

End Shading.

Lemma step_reads_only_the_first_level_witness :
  experiment (R := Lcg.rng) (K := Demo.sklearn 0.5 1 1 (fun _ => 0.75%float))
    (M := Demo.libm) (P := shaded_matplotlib Demo.red Demo.blue Demo.nothing)
    empty_series 0%Z 0.25%float =
  experiment (R := Lcg.rng) (K := Demo.sklearn 0.5 1 1 (fun _ => 0.75%float))
    (M := Demo.libm) (P := shaded_matplotlib Demo.red Demo.blue Demo.red)
    empty_series 0%Z 0.25%float.
Proof.
  apply (step_reads_only_the_first_level
           (R := Lcg.rng) (K := Demo.sklearn 0.5 1 1 (fun _ => 0.75%float))
           (M := Demo.libm)
           (shaded_matplotlib Demo.red Demo.blue Demo.nothing)
           (shaded_matplotlib Demo.red Demo.blue Demo.red)
           empty_series 0%Z 0.25%float).
  intros xx yy Z. split; reflexivity.
Defined.

(** ** A sweep of one step *)

Section SingleStep.
Context {R : NumpyRandom} {K : Sklearn} {M : Libm} {P : Matplotlib}.
Import F64Facts SF SFFacts.
Local Open Scope float_scope.

(** X15. A sweep of one step runs at [start]: [np.linspace] with one
    value returns [0 * (stop - start) + start], which equals [start] when
    [stop - start] is finite, and [stop] is not visited. *)
Theorem single_step_sweep_runs_at_start (start stop : float) (g : rng_state) :
  is_finite (stop - start) = true ->
  exists d,
    Np.linspace start stop 1 = [d] /\ (d =? start) = true /\
    do_experiments start stop 1 g =
      and_then (experiment empty_series g d) (fun sg => Done sg).
Proof.
  intros Hfin. exists (0 * (stop - start) + start).
  split; [reflexivity|]. split.
  - apply is_finite_spec in Hfin.
    apply add_zero_l_eqb.
    + rewrite mul_spec. unfold SF64mul. change (Prim2SF 0) with (S754_zero false).
      now apply mul_zero_l.
    + rewrite sub_spec in Hfin. eapply sub_finite_inv, Hfin.
  - unfold do_experiments.
    change (Np.linspace start stop 1) with [0 * (stop - start) + start].
    rewrite run_experiments_cons.
    destruct (experiment empty_series g _) as [[s1 g1]|e s1]; reflexivity.
Qed.

End SingleStep.

Lemma single_step_sweep_witness :
  exists d,
    Np.linspace 0.25 2 1 = [d] /\ (d =? 0.25)%float = true /\
    do_experiments (R := Lcg.rng) (K := Demo.sklearn 0.5 1 1 (fun _ => 0.75%float))
      (M := Demo.libm) (P := Demo.matplotlib Demo.red Demo.blue) 0.25 2 1 0%Z =
      and_then
        (experiment (R := Lcg.rng) (K := Demo.sklearn 0.5 1 1 (fun _ => 0.75%float))
           (M := Demo.libm) (P := Demo.matplotlib Demo.red Demo.blue)
           empty_series 0%Z d)
        (fun sg => Done sg).
Proof.
  apply (single_step_sweep_runs_at_start
           (R := Lcg.rng) (K := Demo.sklearn 0.5 1 1 (fun _ => 0.75%float))
           (M := Demo.libm) (P := Demo.matplotlib Demo.red Demo.blue)
           0.25%float 2%float 0%Z).
  reflexivity.
Defined.
